(** * desafio_dio: a console bank, its transaction core in Rocq

    Shallow embedding of [desafio_dio.py].  Amounts and balances are Python
    [float]s, that is IEEE 754 binary64 values: they are embedded as Rocq's
    primitive [float], whose operations are specified by [SpecFloat]
    (round to nearest, ties to even, as in Python).  Python [int]s are [Z],
    [str]s are [string]s of bytes (UTF-8), [list]s are [list]s and the
    [dict] returned by [Conta.executar_transacao] is a [gmap] from keys to
    Python values.  Methods that act on an object take the object and
    return their result together with the object as they leave it. *)

From Stdlib Require Import ZArith NArith Floats Ascii String DecimalString.
From stdpp Require Import base option list strings gmap.

Local Open Scope Z_scope.
Local Open Scope string_scope.

(** ** Strings *)

Definition tab : string := String "009"%char EmptyString.
Definition nl : string := String "010"%char EmptyString.

(** ** Python values stored in the outcome dictionary *)

Inductive PyVal : Type :=
  | PyBool (b : bool)
  | PyStr (s : string)
  | PyNone.

(** ** The format specification [.2f]

    [format(x, ".2f")] prints the decimal expansion of the exact binary value
    of [x], correctly rounded to two decimals (ties to even), with a leading
    minus sign when the sign bit is set; the special values print as [nan],
    [inf] and [-inf]. *)

Definition sinal (s : bool) : string := if s then "-" else EmptyString.

Definition digito (n : N) : string :=
  String (ascii_of_N (48 + n)) EmptyString.

Definition decimal (n : N) : string := NilZero.string_of_uint (N.to_uint n).

(** [centesimos m e] is [m * 2^e * 100] rounded to the nearest integer,
    ties to even. *)
Definition centesimos (m : positive) (e : Z) : N :=
  let n := (Z.pos m * 100)%Z in
  if (0 <=? e)%Z then Z.to_N (n * 2 ^ e)
  else
    let d := (2 ^ (- e))%Z in
    let q := (n / d)%Z in
    let r := (n mod d)%Z in
    match (2 * r ?= d)%Z with
    | Lt => Z.to_N q
    | Gt => Z.to_N (q + 1)
    | Eq => if Z.even q then Z.to_N q else Z.to_N (q + 1)
    end.

Definition duas_casas (c : N) : string :=
  decimal (c / 100) ++ "." ++ digito ((c / 10) mod 10) ++ digito (c mod 10).

Definition format_2f (x : float) : string :=
  match Prim2SF x with
  | S754_nan => "nan"
  | S754_infinity s => sinal s ++ "inf"
  | S754_zero s => sinal s ++ "0.00"
  | S754_finite s m e => sinal s ++ duas_casas (centesimos m e)
  end.

(** ** Objects and their methods

    A method of an object of type [S] returning an [A] is a function from
    the object to the result and the object as the method leaves it. *)

Definition Metodo (S A : Type) : Type := S -> A * S.

Definition retorna {S A : Type} (a : A) : Metodo S A := fun s => (a, s).

Definition liga {S A B : Type} (m : Metodo S A) (k : A -> Metodo S B)
  : Metodo S B :=
  fun s => let (a, s1) := m s in k a s1.

Notation "'faz' x <- m ; k" := (liga m (fun x => k))
  (at level 10, x name, m at level 100, k at level 200, only parsing).

(** ** Historico *)

Record Historico : Type := { registros : list string }.

Definition Historico_novo : Historico := {| registros := [] |}.

Definition registrar (linha : string) : Metodo Historico unit :=
  fun self => (tt, {| registros := (registros self ++ [linha])%list |}).

Definition esta_vazio : Metodo Historico bool :=
  fun self => (Nat.eqb (length (registros self)) 0, self).

Definition texto : Metodo Historico string :=
  faz vazio <- esta_vazio;
  if vazio then retorna EmptyString
  else fun self => (String.concat nl (registros self) ++ nl, self).

(** ** Clientes *)

Record PessoaFisica : Type := {
  nome : string;
  endereco : string;
  cpf : string;
  data_nascimento : string
}.

(** ** Conta *)

Record Conta : Type := {
  agencia : string;
  numero_conta : Z;
  cliente : PessoaFisica;
  saldo : float;
  limite : float;
  limite_saques : Z;
  numero_saques : Z;
  historico : Historico
}.

(** [Conta.__init__]: the withdrawal count starts at zero and the history
    is a fresh, empty one, whatever the arguments. *)
Definition Conta_init (agencia : string) (numero_conta : Z)
    (cliente : PessoaFisica) (saldo limite : float) (limite_saques : Z)
  : Conta :=
  {| agencia := agencia; numero_conta := numero_conta; cliente := cliente;
     saldo := saldo; limite := limite; limite_saques := limite_saques;
     numero_saques := 0; historico := Historico_novo |}.

(** The default arguments of [Conta.__init__]. *)
Definition saldo_padrao : float := 0%float.
Definition limite_padrao : float := 500%float.
Definition limite_saques_padrao : Z := 3.

(** Attribute assignments [conta.saldo = v] and [conta.numero_saques = n],
    a call of a method of [conta.historico], and the reading of an
    attribute. *)
Definition atribui_saldo (v : float) : Metodo Conta unit :=
  fun c =>
    (tt, {| agencia := agencia c; numero_conta := numero_conta c;
            cliente := cliente c; saldo := v; limite := limite c;
            limite_saques := limite_saques c;
            numero_saques := numero_saques c; historico := historico c |}).

Definition atribui_numero_saques (n : Z) : Metodo Conta unit :=
  fun c =>
    (tt, {| agencia := agencia c; numero_conta := numero_conta c;
            cliente := cliente c; saldo := saldo c; limite := limite c;
            limite_saques := limite_saques c;
            numero_saques := n; historico := historico c |}).

Definition no_historico {A : Type} (m : Metodo Historico A) : Metodo Conta A :=
  fun c =>
    let (a, h) := m (historico c) in
    (a, {| agencia := agencia c; numero_conta := numero_conta c;
           cliente := cliente c; saldo := saldo c; limite := limite c;
           limite_saques := limite_saques c;
           numero_saques := numero_saques c; historico := h |}).

Definition consulta {A : Type} (campo : Conta -> A) : Metodo Conta A :=
  fun c => (campo c, c).

(** ** Transacoes

    [Deposito] and [Saque] are the two subclasses of [Transacao] of the
    source; [Outra] stands for any other object handed to
    [Conta.executar_transacao]. *)

Inductive Transacao : Type :=
  | Deposito (valor : float)
  | Saque (valor : float)
  | Outra.

Definition Deposito_descricao (valor : float) : string :=
  "Depósito:" ++ tab ++ "R$ " ++ format_2f valor.

Definition Saque_descricao (valor : float) : string :=
  "Saque:" ++ tab ++ tab ++ "R$ " ++ format_2f valor.

Definition Deposito_executar (valor : float) : Metodo Conta bool :=
  if (0 <? valor)%float then
    faz s <- consulta saldo;
    faz _ <- atribui_saldo (s + valor)%float;
    faz _ <- no_historico (registrar (Deposito_descricao valor));
    retorna true
  else retorna false.

Definition Saque_executar (valor : float)
  : Metodo Conta (bool * option string) :=
  fun conta =>
    if (valor <=? 0)%float then (false, Some "valor_invalido", conta)
    else if (saldo conta <? valor)%float then
      (false, Some "saldo_insuficiente", conta)
    else if (limite conta <? valor)%float then
      (false, Some "excede_limite", conta)
    else if (limite_saques conta <=? numero_saques conta)%Z then
      (false, Some "excede_numero_saques", conta)
    else
      (faz _ <- atribui_saldo (saldo conta - valor)%float;
       faz n <- consulta numero_saques;
       faz _ <- atribui_numero_saques (n + 1);
       faz _ <- no_historico (registrar (Saque_descricao valor));
       retorna (true, None)) conta.

(** The value stored under ["motivo"]: the reason, or Python's [None]. *)
Definition motivo_val (m : option string) : PyVal :=
  match m with
  | Some s => PyStr s
  | None => PyNone
  end.

Definition executar_transacao (transacao : Transacao)
  : Metodo Conta (gmap string PyVal) :=
  match transacao with
  | Deposito valor =>
      faz sucesso <- Deposito_executar valor;
      retorna {[ "sucesso" := PyBool sucesso ]}
  | Saque valor =>
      faz r <- Saque_executar valor;
      retorna (<[ "motivo" := motivo_val (snd r) ]>
                 {[ "sucesso" := PyBool (fst r) ]})
  | Outra =>
      retorna (<[ "motivo" := PyStr "transacao_desconhecida" ]>
                 {[ "sucesso" := PyBool false ]})
  end.

(** A sequence of transactions applied to one account, in order; the
    outcomes are returned in the same order. *)
Fixpoint executar_todas (ts : list Transacao)
  : Metodo Conta (list (gmap string PyVal)) :=
  match ts with
  | [] => retorna []
  | t :: ts' =>
      faz r <- executar_transacao t;
      faz rs <- executar_todas ts';
      retorna (r :: rs)
  end.

(** [resultado["sucesso"]] as the driver tests it. *)
Definition teve_sucesso (r : gmap string PyVal) : bool :=
  match r !! "sucesso" with
  | Some (PyBool b) => b
  | _ => false
  end.

(** ** The console

    [input] and [print] act on the process's standard streams: the lines
    still to be read and the text written so far.  [input] at the end of
    the input raises [EOFError]. *)

Record Console : Type := { entrada : list string; saida : list string }.

Inductive Excecao : Type := EOFError.

Definition IO (A : Type) : Type := Console -> (Excecao + A) * Console.

Definition io_retorna {A : Type} (a : A) : IO A := fun k => (inr a, k).

Definition io_liga {A B : Type} (m : IO A) (f : A -> IO B) : IO B :=
  fun k =>
    match m k with
    | (inl e, k1) => (inl e, k1)
    | (inr a, k1) => f a k1
    end.

Notation "'io' x <- m ; k" := (io_liga m (fun x => k))
  (at level 10, x name, m at level 100, k at level 200, only parsing).

Definition escreve (s : string) : IO unit :=
  fun k => (inr tt, {| entrada := entrada k; saida := (saida k ++ [s])%list |}).

Definition print (s : string) : IO unit := escreve (s ++ nl).

Definition input (prompt : string) : IO string :=
  io _ <- escreve prompt;
  fun k =>
    match entrada k with
    | [] => (inl EOFError, k)
    | linha :: resto => (inr linha, {| entrada := resto; saida := saida k |})
    end.

(** [str.strip()]: the whitespace characters at both ends removed.  A
    string is here the UTF-8 encoding of Python's, so the whitespace
    characters of [str.isspace] are given by their encodings: the ones
    below 128 (9 to 13, 28 to 32) are one byte each, and U+0085, U+00A0,
    U+1680, U+2000 to U+200A, U+2028, U+2029, U+202F, U+205F and U+3000
    are two or three bytes.  In UTF-8 the first byte of a character
    is never one of the later bytes of a character, so a string starts
    (ends) with a whitespace character exactly when it starts (ends) with
    one of these byte sequences. *)
Definition de_bytes (l : list N) : string :=
  fold_right (fun n s => String (ascii_of_N n) s) EmptyString l.

Definition espacos : list string :=
  List.map de_bytes
    [[9]; [10]; [11]; [12]; [13]; [28]; [29]; [30]; [31]; [32];
     [194; 133]; [194; 160]; [225; 154; 128];
     [226; 128; 128]; [226; 128; 129]; [226; 128; 130]; [226; 128; 131];
     [226; 128; 132]; [226; 128; 133]; [226; 128; 134]; [226; 128; 135];
     [226; 128; 136]; [226; 128; 137]; [226; 128; 138];
     [226; 128; 168]; [226; 128; 169]; [226; 128; 175];
     [226; 129; 159]; [227; 128; 128]]%N.

(** [s] without its prefix [p], when it starts with [p]. *)
Fixpoint tira_prefixo (p s : string) : option string :=
  match p with
  | EmptyString => Some s
  | String a p' =>
      match s with
      | EmptyString => None
      | String b s' => if Ascii.eqb a b then tira_prefixo p' s' else None
      end
  end.

(** [s] without its first character, when that is one of [ps]. *)
Fixpoint tira_um (ps : list string) (s : string) : option string :=
  match ps with
  | [] => None
  | p :: ps' =>
      match tira_prefixo p s with
      | Some r => Some r
      | None => tira_um ps' s
      end
  end.

(** The characters of [ps] removed from the start of [s], at most [n] of
    them; the length of [s] is enough for all. *)
Fixpoint tira_todos (n : nat) (ps : list string) (s : string) : string :=
  match n with
  | O => s
  | S n' =>
      match tira_um ps s with
      | Some r => tira_todos n' ps r
      | None => s
      end
  end.

Definition lstrip (s : string) : string :=
  tira_todos (String.length s) espacos s.

Definition rstrip (s : string) : string :=
  String.rev
    (tira_todos (String.length s) (List.map String.rev espacos)
       (String.rev s)).

Definition strip (s : string) : string := rstrip (lstrip s).

Arguments strip : simpl never.

(** U+00A0, the no-break space, and U+3000, the ideographic space. *)
Definition nbsp : string := de_bytes [194; 160]%N.
Definition espaco_ideografico : string := de_bytes [227; 128; 128]%N.

(** No string of the list is empty. *)
Definition sem_vazio (ps : list string) : bool :=
  forallb (fun p => match p with EmptyString => false | _ => true end) ps.

(** ** Users and accounts *)

Fixpoint filtrar_usuario_por_cpf (cpf0 : string) (usuarios : list PessoaFisica)
  : option PessoaFisica :=
  match usuarios with
  | [] => None
  | u :: resto =>
      if String.eqb (cpf u) cpf0 then Some u
      else filtrar_usuario_por_cpf cpf0 resto
  end.

(** [criar_usuario] appends to the list it is given; the list as the call
    leaves it is returned here. *)
Definition criar_usuario (usuarios : list PessoaFisica)
  : IO (list PessoaFisica) :=
  io linha <- input "Informe o CPF (somente números): ";
  let cpf0 := strip linha in
  match filtrar_usuario_por_cpf cpf0 usuarios with
  | Some _ =>
      io _ <- print (nl ++ "@@@ Já existe usuário com esse CPF! @@@");
      io_retorna usuarios
  | None =>
      io l1 <- input "Informe o nome completo: ";
      let nome0 := strip l1 in
      io l2 <- input "Informe a data de nascimento (dd-mm-aaaa): ";
      let data_nascimento0 := strip l2 in
      io l3 <- input "Informe o endereço (logradouro, nro - bairro - cidade/sigla estado): ";
      let endereco0 := strip l3 in
      let pf := {| nome := nome0; endereco := endereco0; cpf := cpf0;
                   data_nascimento := data_nascimento0 |} in
      io _ <- print "=== Usuário criado com sucesso! ===";
      io_retorna (usuarios ++ [pf])%list
  end.

Definition criar_conta (agencia : string) (numero_conta : Z)
    (usuarios : list PessoaFisica) : IO (option Conta) :=
  io linha <- input "Informe o CPF do usuário: ";
  let cpf0 := strip linha in
  match filtrar_usuario_por_cpf cpf0 usuarios with
  | Some usuario =>
      let conta := Conta_init agencia numero_conta usuario
                     saldo_padrao limite_padrao limite_saques_padrao in
      io _ <- print (nl ++ "=== Conta criada com sucesso! ===");
      io_retorna (Some conta)
  | None =>
      io _ <- print (nl ++ "@@@ Usuário não encontrado, fluxo de criação de conta encerrado! @@@");
      io_retorna None
  end.

(** A freshly opened account, as [criar_conta] builds it. *)
Definition conta_nova (agencia : string) (numero_conta : Z)
    (cliente : PessoaFisica) : Conta :=
  Conta_init agencia numero_conta cliente
    saldo_padrao limite_padrao limite_saques_padrao.

Definition fulano : PessoaFisica :=
  {| nome := "Fulano"; endereco := "Rua A, 1"; cpf := "12345678900";
     data_nascimento := "01-01-1990" |}.

(** The fields a transaction never touches. *)
Definition mesmos_dados (c c' : Conta) : Prop :=
  agencia c' = agencia c /\ numero_conta c' = numero_conta c /\
  cliente c' = cliente c /\ limite c' = limite c /\
  limite_saques c' = limite_saques c.

(** An account holding 1000 with the default ceiling and maximum, and the
    same account after three withdrawals of 100. *)
Definition conta_mil : Conta :=
  Conta_init "0001" 1 fulano 1000%float 500%float 3.

Definition conta_mil_3_saques : Conta :=
  snd (executar_todas [Saque 100; Saque 100; Saque 100] conta_mil).

(** Every line followed by a line separator, in order. *)
Fixpoint linhas (ls : list string) : string :=
  match ls with
  | [] => EmptyString
  | l :: ls' => l ++ nl ++ linhas ls'
  end.

(** A person with the id [cpf0] is on the list. *)
Definition cadastrado (cpf0 : string) (usuarios : list PessoaFisica) : Prop :=
  exists u, u ∈ usuarios /\ cpf u = cpf0.

(** What [criar_usuario] and [criar_conta] print when they give up. *)
Definition aviso_cpf_duplicado : string :=
  nl ++ "@@@ Já existe usuário com esse CPF! @@@" ++ nl.

Definition aviso_nao_encontrado : string :=
  nl ++ "@@@ Usuário não encontrado, fluxo de criação de conta encerrado! @@@"
     ++ nl.

(** The reasons [Saque.executar] gives. *)
Definition motivos_saque : list string :=
  ["valor_invalido"; "saldo_insuficiente"; "excede_limite";
   "excede_numero_saques"].

(** A fixed-point text with two decimals: an optional minus sign, the
    integer part in decimal, a point and two decimal digits. *)
Definition duas_casas_decimais (s : string) : Prop :=
  exists (sg : bool) (n d1 d2 : N),
    (d1 < 10)%N /\ (d2 < 10)%N /\
    s = sinal sg ++ decimal n ++ "." ++ digito d1 ++ digito d2.

(** An account whose balance and ceiling are both infinite, and one
    holding exactly the default ceiling. *)
Definition conta_infinita : Conta :=
  Conta_init "0001" 1 fulano infinity infinity 3.

Definition conta_quinhentos : Conta :=
  Conta_init "0001" 1 fulano 500%float 500%float 3.

(** The sign of a decoded value: zero of either sign, a positive number
    or plus infinity. *)
Definition nao_negativo (r : spec_float) : bool :=
  match r with
  | S754_zero _ => true
  | S754_infinity s => negb s
  | S754_finite s _ _ => negb s
  | S754_nan => false
  end.

(** The invariants of an account: the balance is not negative, and the
    withdrawal count does not exceed the maximum. *)
Definition invariante (c : Conta) : Prop :=
  (0 <=? saldo c)%float = true /\ (numero_saques c <= limite_saques c)%Z.

(** The amount of a withdrawal is a number. *)
Definition valor_numerico (t : Transacao) : Prop :=
  match t with
  | Saque v => is_nan v = false
  | _ => True
  end.

(** ** The rest of the program: statement, listing and the main loop *)

(** [str.lower()]; of the letters below 128 only, which is what decides
    the comparisons with the menu options, all of them made of such
    letters. *)
Definition lower_ascii (c : ascii) : ascii :=
  let n := N_of_ascii c in
  if ((65 <=? n) && (n <=? 90))%N then ascii_of_N (n + 32) else c.

Fixpoint lower (s : string) : string :=
  match s with
  | EmptyString => EmptyString
  | String c s' => String (lower_ascii c) (lower s')
  end.

(** An [int] in an f-string. *)
Definition str_int (n : Z) : string :=
  match n with
  | Z0 => "0"
  | Zpos p => decimal (Npos p)
  | Zneg p => "-" ++ decimal (Npos p)
  end.

(** [s * n] on strings. *)
Fixpoint repete (n : nat) (s : string) : string :=
  match n with
  | O => EmptyString
  | S n' => s ++ repete n' s
  end.

Definition menu_texto : string :=
  nl ++ "================ MENU ================" ++ nl
     ++ "[d] Depositar" ++ nl
     ++ "[s] Sacar" ++ nl
     ++ "[e] Extrato" ++ nl
     ++ "[nu] Novo Usuário" ++ nl
     ++ "[nc] Nova Conta" ++ nl
     ++ "[lc] Listar Contas" ++ nl
     ++ "[q] Sair" ++ nl
     ++ "=> ".

Definition menu : IO string := input menu_texto.

(** [Conta.exibir_extrato]; the account as the call leaves it is
    returned. *)
Definition exibir_extrato (self : Conta) : IO Conta :=
  io _ <- print (nl ++ "================ EXTRATO ================");
  let (vazio, self1) := no_historico esta_vazio self in
  let (corpo, self2) :=
    if vazio then ("Não foram realizadas movimentações.", self1)
    else no_historico texto self1 in
  io _ <- print corpo;
  io _ <- print (nl ++ "Saldo:" ++ tab ++ tab ++ "R$ " ++ format_2f (saldo self2));
  io _ <- print "==========================================";
  io_retorna self2.

Definition linha_conta (conta : Conta) : string :=
  "Agência:" ++ tab ++ agencia conta ++ nl
    ++ "C/C:" ++ tab ++ tab ++ str_int (numero_conta conta) ++ nl
    ++ "Titular:" ++ tab ++ nome (cliente conta) ++ nl.

Fixpoint listar_laco (contas : list Conta) : IO unit :=
  match contas with
  | [] => io_retorna tt
  | conta :: resto =>
      io _ <- print (repete 60 "=");
      io _ <- print (linha_conta conta);
      listar_laco resto
  end.

Definition listar_contas (contas : list Conta) : IO unit :=
  match contas with
  | [] => print (nl ++ "@@@ Não há contas cadastradas. @@@")
  | _ => listar_laco contas
  end.

(** [next((c for c in contas if c.numero_conta == n), None)]: the first
    account with the number, and its place in the list, through which the
    driver updates it. *)
Fixpoint procurar_conta (n : Z) (contas : list Conta) : option (nat * Conta) :=
  match contas with
  | [] => None
  | c :: resto =>
      if (numero_conta c =? n)%Z then Some (O, c)
      else match procurar_conta n resto with
           | Some (i, c') => Some (S i, c')
           | None => None
           end
  end.

(** The variables of [main]. *)
Record Estado : Type := {
  usuarios : list PessoaFisica;
  contas : list Conta;
  numero_conta_seq : Z
}.

Definition LIMITE_SAQUES : Z := 3.
Definition AGENCIA : string := "0001".

Definition estado_inicial : Estado :=
  {| usuarios := []; contas := []; numero_conta_seq := 1 |}.

(** [conta.limite_saques = v]. *)
Definition atribui_limite_saques (v : Z) : Metodo Conta unit :=
  fun c =>
    (tt, {| agencia := agencia c; numero_conta := numero_conta c;
            cliente := cliente c; saldo := saldo c; limite := limite c;
            limite_saques := v;
            numero_saques := numero_saques c; historico := historico c |}).

Definition aviso_sem_contas : string :=
  nl ++ "@@@ Não há contas. Crie uma conta primeiro. @@@".
Definition aviso_numero_invalido : string :=
  nl ++ "@@@ Número de conta inválido. @@@".
Definition aviso_conta_nao_encontrada : string :=
  nl ++ "@@@ Conta não encontrada. @@@".
Definition aviso_valor_invalido : string :=
  nl ++ "@@@ Valor inválido. @@@".
Definition aviso_operacao_falhou : string :=
  nl ++ "@@@ Operação falhou! O valor informado é inválido. @@@".

(** What the driver prints after a withdrawal that failed. *)
Definition aviso_saque (resultado : gmap string PyVal) : string :=
  match resultado !! "motivo" with
  | Some (PyStr "saldo_insuficiente") =>
      nl ++ "@@@ Operação falhou! Você não tem saldo suficiente. @@@"
  | Some (PyStr "excede_limite") =>
      nl ++ "@@@ Operação falhou! O valor do saque excede o limite. @@@"
  | Some (PyStr "excede_numero_saques") =>
      nl ++ "@@@ Operação falhou! Número máximo de saques excedido. @@@"
  | _ => aviso_operacao_falhou
  end.

Section Principal.

(** [int] and [float] applied to a line of input: the value, or [None]
    for the [ValueError] that the driver catches. *)
Variable py_int : string -> option Z.
Variable py_float : string -> option float.

(** The account chosen at the prompt: [None] when the driver has printed
    its warning and goes back to the menu. *)
Definition escolher_conta (prompt : string) (st : Estado)
  : IO (option (nat * Conta)) :=
  match contas st with
  | [] => io _ <- print aviso_sem_contas; io_retorna None
  | _ =>
      io l <- input prompt;
      match py_int l with
      | None => io _ <- print aviso_numero_invalido; io_retorna None
      | Some n =>
          match procurar_conta n (contas st) with
          | None => io _ <- print aviso_conta_nao_encontrada; io_retorna None
          | Some ic => io_retorna (Some ic)
          end
      end
  end.

(** The amount read at the prompt. *)
Definition ler_valor (prompt : string) : IO (option float) :=
  io l <- input prompt;
  match py_float l with
  | None => io _ <- print aviso_valor_invalido; io_retorna None
  | Some valor => io_retorna (Some valor)
  end.

(** The state with the account at place [i] as the transaction left it. *)
Definition guarda_conta (i : nat) (conta : Conta) (st : Estado) : Estado :=
  {| usuarios := usuarios st; contas := <[ i := conta ]> (contas st);
     numero_conta_seq := numero_conta_seq st |}.

(** One turn of the loop of [main]: the flag tells whether the loop is
    left. *)
Definition iteracao (st : Estado) : IO (bool * Estado) :=
  io linha <- menu;
  let opcao := lower (strip linha) in
  if String.eqb opcao "d" then
    io escolha <- escolher_conta "Informe o número da conta: " st;
    match escolha with
    | None => io_retorna (false, st)
    | Some (i, conta) =>
        io lido <- ler_valor "Informe o valor do depósito: ";
        match lido with
        | None => io_retorna (false, st)
        | Some valor =>
            let (resultado, conta1) :=
              executar_transacao (Deposito valor) conta in
            io _ <- print
              (if teve_sucesso resultado then
                 nl ++ "=== Depósito de R$ " ++ format_2f valor
                    ++ " realizado com sucesso! ==="
               else aviso_operacao_falhou);
            io_retorna (false, guarda_conta i conta1 st)
        end
    end
  else if String.eqb opcao "s" then
    io escolha <- escolher_conta "Informe o número da conta: " st;
    match escolha with
    | None => io_retorna (false, st)
    | Some (i, conta) =>
        io lido <- ler_valor "Informe o valor do saque: ";
        match lido with
        | None => io_retorna (false, st)
        | Some valor =>
            let (_, conta1) := atribui_limite_saques LIMITE_SAQUES conta in
            let (resultado, conta2) :=
              executar_transacao (Saque valor) conta1 in
            io _ <- print
              (if teve_sucesso resultado then
                 nl ++ "=== Saque de R$ " ++ format_2f valor
                    ++ " realizado com sucesso! ==="
               else aviso_saque resultado);
            io_retorna (false, guarda_conta i conta2 st)
        end
    end
  else if String.eqb opcao "e" then
    io escolha <-
      escolher_conta "Informe o número da conta para extrato: " st;
    match escolha with
    | None => io_retorna (false, st)
    | Some (i, conta) =>
        io conta1 <- exibir_extrato conta;
        io_retorna (false, guarda_conta i conta1 st)
    end
  else if String.eqb opcao "nu" then
    io usuarios1 <- criar_usuario (usuarios st);
    io_retorna (false, {| usuarios := usuarios1; contas := contas st;
                          numero_conta_seq := numero_conta_seq st |})
  else if String.eqb opcao "nc" then
    io criada <- criar_conta AGENCIA (numero_conta_seq st) (usuarios st);
    match criada with
    | Some conta =>
        io_retorna (false, {| usuarios := usuarios st;
                              contas := (contas st ++ [conta])%list;
                              numero_conta_seq := numero_conta_seq st + 1 |})
    | None => io_retorna (false, st)
    end
  else if String.eqb opcao "lc" then
    io _ <- listar_contas (contas st);
    io_retorna (false, st)
  else if String.eqb opcao "q" then
    io_retorna (true, st)
  else
    io _ <- print (nl ++ "@@@ Operação inválida, por favor selecione novamente a operação desejada. @@@");
    io_retorna (false, st).

(** The loop of [main], for at most [voltas] turns: [None] when the turns
    run out, otherwise the exception raised or the variables as the loop
    leaves them at [q]. *)
Fixpoint main_laco (voltas : nat) (st : Estado) (k : Console)
  : option ((Excecao + Estado) * Console) :=
  match voltas with
  | O => None
  | S voltas' =>
      match iteracao st k with
      | (inl e, k1) => Some (inl e, k1)
      | (inr (true, st1), k1) => Some (inr st1, k1)
      | (inr (false, st1), k1) => main_laco voltas' st1 k1
      end
  end.

(** [main]: every turn reads at least the menu option, so one turn more
    than there are lines of input is enough (see [main_termina]). *)
Definition main (k : Console) : option ((Excecao + Estado) * Console) :=
  main_laco (S (length (entrada k))) estado_inicial k.

End Principal.

(** Readers of plain decimal numerals, on which they agree with [int] and
    [float] (the numerals below [2^53] for the latter); they read the
    examples. *)
Fixpoint digitos (s : string) (acc : N) : option N :=
  match s with
  | EmptyString => Some acc
  | String c s' =>
      let n := N_of_ascii c in
      if ((48 <=? n) && (n <=? 57))%N then digitos s' (10 * acc + (n - 48))%N
      else None
  end.

Definition int_decimal (s : string) : option Z :=
  match strip s with
  | EmptyString => None
  | t => option_map Z.of_N (digitos t 0)
  end.

Definition float_decimal (s : string) : option float :=
  option_map (fun n => PrimFloat.of_uint63 (Uint63.of_Z n)) (int_decimal s).

(** A session: a person is registered, an account is opened for them,
    150 is deposited and 100 withdrawn, the statement is shown. *)
Definition sessao : Console :=
  {| entrada := ["nu"; "12345678900"; "Fulano"; "01-01-1990"; "Rua A, 1";
                 "nc"; "12345678900";
                 "d"; "1"; "150";
                 "S"; "1"; "100";
                 "e"; "1"; " q "];
     saida := [] |}.

(** A withdrawal that reported success, in a sequence of transactions
    paired with their outcomes. *)
Definition saque_com_sucesso (par : Transacao * gmap string PyVal) : bool :=
  match fst par with
  | Saque _ => teve_sucesso (snd par)
  | _ => false
  end.

(** A text without line separator. *)
Fixpoint sem_nl (s : string) : bool :=
  match s with
  | EmptyString => true
  | String c s' => negb (Ascii.eqb c "010") && sem_nl s'
  end.

(** A second person registered after [fulano]: the list and the console
    as [criar_usuario] leaves them. *)
Definition sessao_usuarios : list PessoaFisica * Console :=
  match criar_usuario [fulano]
          {| entrada := ["111"; "Beltrano"; "02-02-1992"; "Rua B, 2"];
             saida := [] |} with
  | (inr us, k) => (us, k)
  | (inl _, k) => ([], k)
  end.

(** What one turn of the loop of [main] can do to its variables, when the
    amounts it reads satisfy [V]: nothing; a deposit on an account of the
    list; a withdrawal on an account of the list, after its maximum number
    of withdrawals is set; one person more, with an id that nobody had; one
    account more, with the next number, for a person of the list. *)
Inductive passo (V : float -> Prop) (st : Estado) : Estado -> Prop :=
  | passo_nada : passo V st st
  | passo_deposito (i : nat) (c : Conta) (v : float) :
      contas st !! i = Some c -> V v ->
      passo V st
        (guarda_conta i (snd (executar_transacao (Deposito v) c)) st)
  | passo_saque (i : nat) (c : Conta) (v : float) :
      contas st !! i = Some c -> V v ->
      passo V st
        (guarda_conta i
           (snd (executar_transacao (Saque v)
                   (snd (atribui_limite_saques LIMITE_SAQUES c)))) st)
  | passo_usuario (pf : PessoaFisica) :
      ~ cadastrado (cpf pf) (usuarios st) ->
      passo V st {| usuarios := (usuarios st ++ [pf])%list;
                    contas := contas st;
                    numero_conta_seq := numero_conta_seq st |}
  | passo_conta (u : PessoaFisica) :
      u ∈ usuarios st ->
      passo V st
        {| usuarios := usuarios st;
           contas := (contas st
                      ++ [Conta_init AGENCIA (numero_conta_seq st) u
                            saldo_padrao limite_padrao
                            limite_saques_padrao])%list;
           numero_conta_seq := numero_conta_seq st + 1 |}.

(** The accounts are numbered 1, 2, 3, ... in the order of the list, and
    the next number is the one after the last. *)
Definition numeros_em_sequencia (st : Estado) : Prop :=
  numero_conta <$> contas st = Z.of_nat <$> seq 1 (length (contas st))
  /\ numero_conta_seq st = 1 + Z.of_nat (length (contas st)).

(** The ids of the persons are pairwise distinct and every account belongs
    to a person of the list. *)
Definition titulares_cadastrados (st : Estado) : Prop :=
  NoDup (cpf <$> usuarios st)
  /\ Forall (fun c => cliente c ∈ usuarios st) (contas st).

(** Every account has the branch of the program, the default ceiling, the
    maximum of three withdrawals and a withdrawal count from 0 to 3. *)
Definition contas_padrao (st : Estado) : Prop :=
  Forall (fun c => agencia c = AGENCIA /\ limite c = limite_padrao
                   /\ limite_saques c = LIMITE_SAQUES
                   /\ 0 <= numero_saques c <= LIMITE_SAQUES)
    (contas st).

(** No account has a negative balance. *)
Definition saldos_nao_negativos (st : Estado) : Prop :=
  Forall (fun c => (0 <=? saldo c)%float = true) (contas st).

(** The lines of input still to be read. *)
Definition restante (k : Console) : nat := length (entrada k).

(** A console action reads lines and never puts one back, and raises only
    when the input is at its end. *)
Definition comportada {A : Type} (m : IO A) : Prop :=
  forall k : Console,
    (restante (snd (m k)) <= restante k)%nat
    /\ (forall e, fst (m k) = inl e -> entrada (snd (m k)) = []).

(** What a console action returns, when it returns. *)
Definition io_pos {A : Type} (m : IO A) (Q : A -> Prop) : Prop :=
  forall (k : Console) (a : A) (k' : Console), m k = (inr a, k') -> Q a.

(** The session: the variables and the console as [main] leaves them. *)
Definition sessao_fim : Estado * Console :=
  match main int_decimal float_decimal sessao with
  | Some (inr st, k) => (st, k)
  | Some (inl _, k) => (estado_inicial, k)
  | None => (estado_inicial, sessao)
  end.

(** The amounts that [float] can give to the driver. *)
Definition lido (py_float : string -> option float) (v : float) : Prop :=
  exists l, py_float l = Some v.

(** A state with one person and no account, and a console on which an
    account is opened for them and the program is left. *)
Definition estado_fulano : Estado :=
  {| usuarios := [fulano]; contas := []; numero_conta_seq := 1 |}.

Definition sessao_conta : Console :=
  {| entrada := ["nc"; "12345678900"; "q"]; saida := [] |}.

Definition sessao_conta_fim : Estado * Console :=
  match main_laco int_decimal float_decimal 3 estado_fulano sessao_conta with
  | Some (inr st, k) => (st, k)
  | Some (inl _, k) => (estado_inicial, k)
  | None => (estado_inicial, sessao_conta)
  end.

(** A state with two accounts of one person, and a console on which 150
    is deposited on the second. *)
Definition estado_duas_contas : Estado :=
  {| usuarios := [fulano];
     contas := [conta_nova AGENCIA 1 fulano; conta_nova AGENCIA 2 fulano];
     numero_conta_seq := 3 |}.

Definition sessao_deposito : Console :=
  {| entrada := ["d"; "2"; "150"]; saida := [] |}.

(** The amounts that [float] gives on the lines [ls]. *)
Definition lido_em (py_float : string -> option float) (ls : list string)
    (v : float) : Prop :=
  exists l, l ∈ ls /\ py_float l = Some v.

(** What a console action returns and the lines it has read, when it
    returns: the input before the call is the lines read followed by the
    input after it. *)
Definition io_lendo {A : Type} (m : IO A) (Q : list string -> A -> Prop)
  : Prop :=
  forall (k : Console) (a : A) (k' : Console),
    m k = (inr a, k') ->
    exists ls, entrada k = (ls ++ entrada k')%list /\ Q ls a.

(** A reader that, like [float], gives a not-a-number on the line
    [nan], in either case and with blanks around it, and reads the plain
    decimal numerals. *)
Definition float_com_nan (s : string) : option float :=
  if String.eqb (lower (strip s)) "nan" then Some nan else float_decimal s.

(** The session followed by lines that are never read: the program is
    left at [q] before the deposit of a not-a-number. *)
Definition sessao_nan : Console :=
  {| entrada := (entrada sessao ++ ["d"; "1"; "nan"])%list; saida := [] |}.

Definition sessao_nan_fim : Estado * Console :=
  match main int_decimal float_com_nan sessao_nan with
  | Some (inr st, k) => (st, k)
  | Some (inl _, k) => (estado_inicial, k)
  | None => (estado_inicial, sessao_nan)
  end.

(** * Properties *)

(** ** Signs of rounded values

    Rounding a non-negative integer mantissa gives a non-negative value,
    and of two non-negative canonical values the smaller has the smaller
    aligned mantissa. *)

Section Sinais.

Local Open Scope Z_scope.

Variables prec emax : Z.

Lemma SFleb_zero_nao_negativo (r : spec_float) :
  SFleb (S754_zero false) r = nao_negativo r.
Proof. destruct r as [s|s| |s m e]; try reflexivity; destruct s; reflexivity. Qed.

Lemma iter_pos_inv {A : Type} (P : A -> Prop) (f : A -> A) :
  (forall x, P x -> P (f x)) -> forall n x, P x -> P (SpecFloat.iter_pos f n x).
Proof.
  intros Hf. induction n as [n IH|n IH|]; intros x Hx; simpl; auto.
Qed.

Lemma shr_1_nonneg (mrs : shr_record) : 0 <= shr_m mrs -> 0 <= shr_m (shr_1 mrs).
Proof.
  destruct mrs as [m r s]. simpl.
  destruct m as [|[p|p|]|p]; simpl; lia.
Qed.

Lemma shr_nonneg (mrs : shr_record) (e n : Z) :
  0 <= shr_m mrs -> 0 <= shr_m (fst (shr mrs e n)).
Proof.
  intros H. unfold shr. destruct n as [|p|p]; simpl; auto.
  apply (iter_pos_inv (fun x => 0 <= shr_m x)); auto using shr_1_nonneg.
Qed.

Lemma shr_fexp_nonneg (m e : Z) (l : location) :
  0 <= m -> 0 <= shr_m (fst (shr_fexp prec emax m e l)).
Proof.
  intros H. unfold shr_fexp. apply shr_nonneg.
  destruct l as [|[]]; exact H.
Qed.

Lemma round_nearest_even_nonneg (m : Z) (l : location) :
  0 <= m -> 0 <= round_nearest_even m l.
Proof.
  intros H. unfold round_nearest_even.
  destruct l as [|[]]; try lia. destruct (Z.even m); lia.
Qed.

Lemma binary_round_aux_sinal (sx : bool) (mx ex : Z) (lx : location) :
  0 <= mx ->
  nao_negativo (binary_round_aux prec emax sx mx ex lx) = negb sx
  \/ exists s, binary_round_aux prec emax sx mx ex lx = S754_zero s.
Proof.
  intros H. unfold binary_round_aux.
  pose proof (shr_fexp_nonneg mx ex lx H) as H1.
  destruct (shr_fexp prec emax mx ex lx) as [mrs' e']. simpl in H1.
  pose proof (shr_fexp_nonneg
                (round_nearest_even (shr_m mrs') (loc_of_shr_record mrs'))
                e' loc_Exact
                (round_nearest_even_nonneg _ _ H1)) as H2.
  destruct (shr_fexp prec emax _ e' loc_Exact) as [mrs'' e'']. simpl in H2.
  destruct (shr_m mrs'') as [|p|p].
  - right. eauto.
  - left. destruct (e'' <=? emax - prec); reflexivity.
  - lia.
Qed.

Lemma binary_normalize_nonneg (m e : Z) :
  0 <= m -> nao_negativo (binary_normalize prec emax m e false) = true.
Proof.
  intros H. unfold binary_normalize. destruct m as [|p|p]; [reflexivity| |lia].
  unfold binary_round.
  destruct (shl_align p e (fexp prec emax (Z.pos (digits2_pos p) + e))) as [mz ez].
  destruct (binary_round_aux_sinal false (Z.pos mz) ez loc_Exact) as [E|[s E]];
    [lia | exact E | rewrite E; reflexivity].
Qed.

Lemma digits2_pos_size (p : positive) : digits2_pos p = Pos.size p.
Proof. induction p as [p IH|p IH|]; simpl; congruence. Qed.

Lemma pos_lt_pow_digits (p : positive) : Z.pos p < 2 ^ Z.pos (digits2_pos p).
Proof.
  rewrite digits2_pos_size. pose proof (Pos.size_gt p) as H.
  apply Pos2Z.pos_lt_pos in H. rewrite Pos2Z.inj_pow in H. exact H.
Qed.

Lemma pow_digits_le_double (p : positive) :
  2 ^ Z.pos (digits2_pos p) <= 2 * Z.pos p.
Proof.
  rewrite digits2_pos_size. pose proof (Pos.size_le p) as H.
  apply Pos2Z.pos_le_pos in H. rewrite Pos2Z.inj_pow in H. exact H.
Qed.

Lemma iter_xO_pow (m d : positive) :
  Z.pos (Pos.iter xO m d) = Z.pos m * 2 ^ Z.pos d.
Proof.
  induction d as [|d IH] using Pos.peano_ind.
  - simpl. lia.
  - rewrite Pos.iter_succ, Pos2Z.inj_xO, IH, Pos2Z.inj_succ.
    rewrite Z.pow_succ_r by lia. lia.
Qed.

Lemma shl_align_valor (m : positive) (e e' : Z) :
  e' <= e -> Z.pos (fst (shl_align m e e')) = Z.pos m * 2 ^ (e - e').
Proof.
  intros H. unfold shl_align.
  destruct (e' - e) as [|d|d] eqn:E; simpl fst.
  - replace (e - e') with 0 by lia. lia.
  - lia.
  - rewrite iter_xO_pow. replace (e - e') with (Z.pos d) by lia. reflexivity.
Qed.

Hypothesis prec_pos : 0 < prec.

Lemma mantissas_ordenadas (mx my : positive) (ex ey : Z) :
  bounded prec emax mx ex = true ->
  bounded prec emax my ey = true ->
  SFltb (S754_finite false mx ex) (S754_finite false my ey) = false ->
  Z.pos (fst (shl_align my ey (Z.min ex ey)))
  <= Z.pos (fst (shl_align mx ex (Z.min ex ey))).
Proof.
  unfold bounded, canonical_mantissa, fexp, emin, SFltb, SFcompare.
  intros Hx Hy Hc.
  apply andb_prop in Hx as [Hx _]. apply andb_prop in Hy as [Hy _].
  apply Z.eqb_eq in Hx, Hy.
  rewrite !shl_align_valor by lia.
  destruct (Z.compare_spec ex ey) as [E|L|G]; [|discriminate|].
  - subst ey. rewrite Z.min_id, Z.sub_diag. simpl.
    rewrite Pos.compare_cont_spec in Hc. simpl in Hc.
    destruct (Pos.compare_spec mx my) as [E|L|G]; try discriminate; lia.
  - rewrite Z.min_r by lia. rewrite Z.sub_diag, Z.mul_1_r.
    pose proof (pos_lt_pow_digits my) as Hmy.
    pose proof (pow_digits_le_double mx) as Hmx.
    assert (Hdx : Z.pos (digits2_pos mx) = prec) by lia.
    assert (Hdy : Z.pos (digits2_pos my) <= prec) by lia.
    assert (2 ^ Z.pos (digits2_pos my) <= 2 ^ prec)
      by (apply Z.pow_le_mono_r; lia).
    assert (2 ^ 1 <= 2 ^ (ex - ey)) by (apply Z.pow_le_mono_r; lia).
    rewrite Hdx in Hmx. change (2 ^ 1) with 2 in *. nia.
Qed.

Lemma SFsub_nao_negativo (X : spec_float) (my : positive) (ey : Z) :
  SpecFloat.valid_binary prec emax X = true ->
  bounded prec emax my ey = true ->
  nao_negativo X = true ->
  SFltb X (S754_finite false my ey) = false ->
  nao_negativo (SFsub prec emax X (S754_finite false my ey)) = true.
Proof.
  intros Vx Vy Hx Hc. destruct X as [s|s| |s mx ex]; simpl in Hx.
  - discriminate Hc.
  - exact Hx.
  - discriminate Hx.
  - destruct s; [discriminate Hx|]. unfold SFsub.
    apply binary_normalize_nonneg. unfold cond_Zopp.
    pose proof (mantissas_ordenadas mx my ex ey Vx Vy Hc). lia.
Qed.

Lemma SFadd_nao_negativo (X Y : spec_float) :
  nao_negativo X = true -> nao_negativo Y = true ->
  nao_negativo (SFadd prec emax X Y) = true.
Proof.
  intros Hx Hy.
  destruct X as [sx|sx| |sx mx ex], Y as [sy|sy| |sy my ey];
    simpl in *; try discriminate; try assumption;
    try (destruct sx, sy; simpl in *; congruence).
  destruct sx, sy; try discriminate.
  apply binary_normalize_nonneg. unfold cond_Zopp. lia.
Qed.
End Sinais.

(** ** Binary64 comparisons and arithmetic *)

Section Binary64.

Local Open Scope float_scope.

Lemma zero_SF : Prim2SF 0 = S754_zero false.
Proof. reflexivity. Qed.

Lemma infinity_SF : Prim2SF infinity = S754_infinity false.
Proof. reflexivity. Qed.

Lemma SFcompare_antisym (x y : spec_float) :
  SFcompare y x = option_map CompOpp (SFcompare x y).
Proof.
  destruct x as [sx|sx| |sx mx ex], y as [sy|sy| |sy my ey]; simpl;
    try reflexivity;
    try (destruct sx; reflexivity); try (destruct sy; reflexivity);
    try (destruct sx, sy; reflexivity).
  destruct sx, sy; simpl; try reflexivity;
    rewrite (Z.compare_antisym ex ey);
    destruct (ex ?= ey)%Z; simpl; try reflexivity;
    rewrite (Pos.compare_cont_antisym mx my Eq); reflexivity.
Qed.

Lemma SFcompare_refl (x : spec_float) :
  SFcompare x x = Some Eq \/ SFcompare x x = None.
Proof.
  destruct x as [sx|sx| |sx mx ex]; simpl; auto.
  - left. destruct sx; reflexivity.
  - left. rewrite Z.compare_refl, Pos.compare_cont_refl.
    destruct sx; reflexivity.
Qed.

Lemma leb_true_ltb_false (a b : float) :
  (a <=? b) = true -> (b <? a) = false.
Proof.
  rewrite leb_spec, ltb_spec. unfold SFleb, SFltb.
  rewrite (SFcompare_antisym (Prim2SF a) (Prim2SF b)).
  destruct (SFcompare (Prim2SF a) (Prim2SF b)) as [[]|]; simpl; congruence.
Qed.

Lemma ltb_true_leb_false (a b : float) :
  (a <? b) = true -> (b <=? a) = false.
Proof.
  rewrite leb_spec, ltb_spec. unfold SFleb, SFltb.
  rewrite (SFcompare_antisym (Prim2SF a) (Prim2SF b)).
  destruct (SFcompare (Prim2SF a) (Prim2SF b)) as [[]|]; simpl; congruence.
Qed.

Lemma ltb_irrefl (a : float) : (a <? a) = false.
Proof.
  rewrite ltb_spec. unfold SFltb.
  destruct (SFcompare_refl (Prim2SF a)) as [-> | ->]; reflexivity.
Qed.

(** [is_finite] in terms of the decoded value. *)
Lemma is_finite_SF (x : float) :
  is_finite x = true ->
  (exists s, Prim2SF x = S754_zero s) \/
  (exists s m e, Prim2SF x = S754_finite s m e).
Proof.
  unfold is_finite, is_nan, is_infinity.
  rewrite !FloatAxioms.eqb_spec, abs_spec, infinity_SF.
  destruct (Prim2SF x) as [s|s| |s m e]; intros H.
  - left. eauto.
  - destruct s; discriminate H.
  - discriminate H.
  - right. eauto.
Qed.

Lemma shl_align_same (m : positive) (e : Z) :
  shl_align m e e = (m, e).
Proof. unfold shl_align. rewrite Z.sub_diag. reflexivity. Qed.

(** A finite value minus itself is [+0.0]. *)
Lemma sub_diag_finite (x : float) :
  is_finite x = true -> (0 <? x) = true -> x - x = 0.
Proof.
  intros Hf Hpos. apply Prim2SF_inj. rewrite sub_spec, zero_SF.
  rewrite ltb_spec, zero_SF in Hpos.
  destruct (is_finite_SF x Hf) as [[s E] | (s & m & e & E)];
    rewrite E in *.
  - discriminate.
  - unfold SF64sub, SFsub. rewrite Z.min_id, shl_align_same. simpl fst.
    rewrite Z.sub_diag. reflexivity.
Qed.

Lemma SFcompare_refl_Eq (x : spec_float) :
  x <> S754_nan -> SFcompare x x = Some Eq.
Proof.
  intros H. destruct (SFcompare_refl x) as [E|E]; [exact E|].
  destruct x as [sx|sx| |sx mx ex]; try discriminate E. congruence.
Qed.

Lemma is_nan_SF (x : float) : is_nan x = false -> Prim2SF x <> S754_nan.
Proof.
  unfold is_nan. rewrite FloatAxioms.eqb_spec. intros H E.
  rewrite E in H. discriminate H.
Qed.

Lemma SF_is_finite (x : float) :
  (exists s, Prim2SF x = S754_zero s) \/
  (exists s m e, Prim2SF x = S754_finite s m e) ->
  is_finite x = true.
Proof.
  unfold is_finite, is_nan, is_infinity.
  rewrite !FloatAxioms.eqb_spec, abs_spec, infinity_SF. unfold SFeqb.
  intros [[s E] | (s & m & e & E)]; rewrite E.
  - reflexivity.
  - rewrite SFcompare_refl_Eq by discriminate. reflexivity.
Qed.

Lemma leb_zero_nao_negativo (x : float) :
  (0 <=? x) = nao_negativo (Prim2SF x).
Proof. rewrite leb_spec, zero_SF. apply SFleb_zero_nao_negativo. Qed.

Lemma ltb_zero_nao_negativo (x : float) :
  (0 <? x) = true -> nao_negativo (Prim2SF x) = true.
Proof.
  rewrite ltb_spec, zero_SF.
  destruct (Prim2SF x) as [s|s| |s m e]; try discriminate;
    destruct s; try discriminate; reflexivity.
Qed.

(** The sum of a non-negative and a positive value is not negative. *)
Lemma add_nao_negativo (x y : float) :
  (0 <=? x) = true -> (0 <? y) = true -> (0 <=? x + y) = true.
Proof.
  rewrite !leb_zero_nao_negativo, add_spec. intros Hx Hy.
  apply SFadd_nao_negativo; [exact Hx | apply ltb_zero_nao_negativo, Hy].
Qed.

(** A number that is positive and not above a finite value is a
    positive finite value. *)
Lemma positivo_limitado (l y : float) :
  is_finite l = true -> (l <? y) = false -> is_nan y = false ->
  (y <=? 0) = false ->
  exists m e, Prim2SF y = S754_finite false m e.
Proof.
  intros Hl Hly Hn Hy. apply is_nan_SF in Hn.
  rewrite ltb_spec in Hly. rewrite leb_spec, zero_SF in Hy.
  destruct (Prim2SF y) as [s|s| |s m e].
  - discriminate Hy.
  - destruct s; [discriminate Hy|].
    destruct (is_finite_SF l Hl) as [[s E] | (s & m & e & E)];
      rewrite E in Hly; [|destruct s]; discriminate Hly.
  - congruence.
  - destruct s; [discriminate Hy | eauto].
Qed.

(** A positive finite value taken from a non-negative value that is not
    below it leaves a non-negative value. *)
Lemma sub_nao_negativo (x y : float) (m : positive) (e : Z) :
  (0 <=? x) = true -> Prim2SF y = S754_finite false m e ->
  (x <? y) = false -> (0 <=? x - y) = true.
Proof.
  rewrite !leb_zero_nao_negativo, sub_spec, ltb_spec. intros Hx Ey Hc.
  pose proof (Prim2SF_valid y) as Vy. rewrite Ey in *.
  apply SFsub_nao_negativo;
    [reflexivity | apply Prim2SF_valid | exact Vy | exact Hx | exact Hc].
Qed.

Lemma limitado_finito (l b : float) :
  is_finite l = true -> (0 <? b) = true -> (b <=? l) = true ->
  is_finite b = true.
Proof.
  intros Hl H0 Hb. apply SF_is_finite.
  rewrite ltb_spec, zero_SF in H0. rewrite leb_spec in Hb.
  destruct (Prim2SF b) as [s|s| |s m e]; eauto; try discriminate H0.
  destruct s; [discriminate H0|].
  destruct (is_finite_SF l Hl) as [[s E] | (s & m & e & E)];
    rewrite E in Hb; [|destruct s]; discriminate Hb.
Qed.

End Binary64.

(** ** Saque and Deposito *)

Section Transacoes.

Local Open Scope float_scope.

Lemma Saque_executar_sucesso (valor : float) (conta : Conta) :
  (valor <=? 0) = false ->
  (saldo conta <? valor) = false ->
  (limite conta <? valor) = false ->
  (numero_saques conta < limite_saques conta)%Z ->
  Saque_executar valor conta =
    (true, None,
     {| agencia := agencia conta; numero_conta := numero_conta conta;
        cliente := cliente conta; saldo := saldo conta - valor;
        limite := limite conta; limite_saques := limite_saques conta;
        numero_saques := numero_saques conta + 1;
        historico :=
          {| registros :=
               (registros (historico conta) ++ [Saque_descricao valor])%list |}
     |}).
Proof.
  intros H1 H2 H3 H4. unfold Saque_executar. rewrite H1, H2, H3.
  destruct (Z.leb_spec (limite_saques conta) (numero_saques conta)) as [Hle|_].
  - exfalso. apply (Z.lt_irrefl (numero_saques conta)).
    eapply Z.lt_le_trans; eassumption.
  - reflexivity.
Qed.

Lemma Deposito_executar_sucesso (valor : float) (conta : Conta) :
  (0 <? valor) = true ->
  Deposito_executar valor conta =
    (true,
     {| agencia := agencia conta; numero_conta := numero_conta conta;
        cliente := cliente conta; saldo := saldo conta + valor;
        limite := limite conta; limite_saques := limite_saques conta;
        numero_saques := numero_saques conta;
        historico :=
          {| registros :=
               (registros (historico conta) ++ [Deposito_descricao valor])%list |}
     |}).
Proof. intros H. unfold Deposito_executar. rewrite H. reflexivity. Qed.

Lemma Deposito_executar_falha (valor : float) (conta : Conta) :
  (0 <? valor) = false -> Deposito_executar valor conta = (false, conta).
Proof. intros H. unfold Deposito_executar. rewrite H. reflexivity. Qed.

(** C1: [Saque.executar] checks, in this order, that the amount is
    positive ([valor_invalido]), that it does not exceed the balance
    ([saldo_insuficiente]), that it does not exceed the per-transaction
    ceiling ([excede_limite]) and that the withdrawal count is below the
    maximum ([excede_numero_saques]); the first check that fails gives the
    outcome and the account is left as it was.  When all pass, the balance
    is decreased by the amount, the count is increased by one, one
    description is appended to the history and the outcome is success. *)
Theorem Saque_executar_ordem (valor : float) (conta : Conta) :
  ((valor <=? 0) = true ->
     Saque_executar valor conta = (false, Some "valor_invalido"%string, conta))
  /\ ((valor <=? 0) = false -> (saldo conta <? valor) = true ->
     Saque_executar valor conta =
       (false, Some "saldo_insuficiente"%string, conta))
  /\ ((valor <=? 0) = false -> (saldo conta <? valor) = false ->
      (limite conta <? valor) = true ->
     Saque_executar valor conta = (false, Some "excede_limite"%string, conta))
  /\ ((valor <=? 0) = false -> (saldo conta <? valor) = false ->
      (limite conta <? valor) = false ->
      (limite_saques conta <= numero_saques conta)%Z ->
     Saque_executar valor conta =
       (false, Some "excede_numero_saques"%string, conta))
  /\ ((valor <=? 0) = false -> (saldo conta <? valor) = false ->
      (limite conta <? valor) = false ->
      (numero_saques conta < limite_saques conta)%Z ->
     exists conta',
       Saque_executar valor conta = (true, None, conta')
       /\ saldo conta' = saldo conta - valor
       /\ numero_saques conta' = (numero_saques conta + 1)%Z
       /\ registros (historico conta') =
            (registros (historico conta) ++ [Saque_descricao valor])%list
       /\ mesmos_dados conta conta').
Proof.
  repeat split.
  - intros H1. unfold Saque_executar. rewrite H1. reflexivity.
  - intros H1 H2. unfold Saque_executar. rewrite H1, H2. reflexivity.
  - intros H1 H2 H3. unfold Saque_executar. rewrite H1, H2, H3. reflexivity.
  - intros H1 H2 H3 H4. unfold Saque_executar. rewrite H1, H2, H3.
    apply Z.leb_le in H4. rewrite H4. reflexivity.
  - intros H1 H2 H3 H4. eexists. split.
    + apply Saque_executar_sucesso; assumption.
    + repeat split.
Qed.

(** The five outcomes of a withdrawal, on an account holding 1000 with the
    default ceiling and maximum. *)
Lemma Saque_executar_ordem_witness :
  Saque_executar (-5) conta_mil =
    (false, Some "valor_invalido"%string, conta_mil)
  /\ Saque_executar 2000 conta_mil =
    (false, Some "saldo_insuficiente"%string, conta_mil)
  /\ Saque_executar 600 conta_mil =
    (false, Some "excede_limite"%string, conta_mil)
  /\ Saque_executar 100 conta_mil_3_saques =
    (false, Some "excede_numero_saques"%string, conta_mil_3_saques)
  /\ exists conta',
       Saque_executar 100 conta_mil = (true, None, conta')
       /\ saldo conta' = saldo conta_mil - 100
       /\ numero_saques conta' = (numero_saques conta_mil + 1)%Z
       /\ registros (historico conta') =
            (registros (historico conta_mil) ++ [Saque_descricao 100])%list
       /\ mesmos_dados conta_mil conta'.
Proof.
  split; [| split; [| split; [| split]]].
  - apply (proj1 (Saque_executar_ordem (-5) conta_mil)). reflexivity.
  - apply (proj1 (proj2 (Saque_executar_ordem 2000 conta_mil)));
      reflexivity.
  - apply (proj1 (proj2 (proj2 (Saque_executar_ordem 600 conta_mil))));
      reflexivity.
  - apply (proj1 (proj2 (proj2 (proj2
             (Saque_executar_ordem 100 conta_mil_3_saques)))));
      reflexivity.
  - apply (proj2 (proj2 (proj2 (proj2
             (Saque_executar_ordem 100 conta_mil)))));
      reflexivity.
Defined.

(** C2: a deposit of a positive amount adds the amount to the balance,
    appends one entry to the history and succeeds; a deposit or a
    withdrawal of an amount that is zero or negative fails and leaves the
    account, its balance and history included, as it was. *)
Theorem Deposito_Saque_valor (a : float) (conta : Conta) :
  ((0 <? a) = true ->
     exists conta',
       Deposito_executar a conta = (true, conta')
       /\ saldo conta' = saldo conta + a
       /\ registros (historico conta') =
            (registros (historico conta) ++ [Deposito_descricao a])%list
       /\ length (registros (historico conta')) =
            S (length (registros (historico conta)))
       /\ numero_saques conta' = numero_saques conta
       /\ mesmos_dados conta conta')
  /\ ((a <=? 0) = true ->
     Deposito_executar a conta = (false, conta)
     /\ Saque_executar a conta =
          (false, Some "valor_invalido"%string, conta)).
Proof.
  split.
  - intros H. eexists. split.
    + apply Deposito_executar_sucesso, H.
    + simpl. rewrite length_app, Nat.add_comm. repeat split.
  - intros H. split.
    + apply Deposito_executar_falha, leb_true_ltb_false, H.
    + unfold Saque_executar. rewrite H. reflexivity.
Qed.

Lemma Deposito_Saque_valor_witness :
  (exists conta',
     Deposito_executar 150 conta_mil = (true, conta')
     /\ saldo conta' = saldo conta_mil + 150
     /\ registros (historico conta') =
          (registros (historico conta_mil) ++ [Deposito_descricao 150])%list
     /\ length (registros (historico conta')) =
          S (length (registros (historico conta_mil)))
     /\ numero_saques conta' = numero_saques conta_mil
     /\ mesmos_dados conta_mil conta')
  /\ Deposito_executar (-1) conta_mil = (false, conta_mil)
  /\ Saque_executar (-1) conta_mil =
       (false, Some "valor_invalido"%string, conta_mil).
Proof.
  split.
  - apply (proj1 (Deposito_Saque_valor 150 conta_mil)). reflexivity.
  - apply (proj2 (Deposito_Saque_valor (-1) conta_mil)). reflexivity.
Defined.

End Transacoes.

(** ** Conta.executar_transacao *)

(** The five ways through [Saque_executar]. *)
Ltac casos_saque v c :=
  unfold Saque_executar;
  destruct (v <=? 0)%float eqn:?;
  [| destruct (saldo c <? v)%float eqn:?;
     [| destruct (limite c <? v)%float eqn:?;
        [| destruct (limite_saques c <=? numero_saques c)%Z eqn:? ]]].

Section Resultados.

Local Open Scope float_scope.

Lemma sucesso_Deposito (v : float) (c : Conta) :
  teve_sucesso (fst (executar_transacao (Deposito v) c)) = (0 <? v).
Proof.
  unfold executar_transacao, liga, Deposito_executar.
  destruct (0 <? v); reflexivity.
Qed.

Lemma sucesso_Saque (v : float) (c : Conta) :
  teve_sucesso (fst (executar_transacao (Saque v) c)) =
  fst (fst (Saque_executar v c)).
Proof.
  unfold executar_transacao, liga.
  destruct (Saque_executar v c) as [[b m] c']. reflexivity.
Qed.

(** One transaction: on success the history grows by one line, on
    failure the account is the one the transaction was applied to. *)
Lemma executar_transacao_passo (t : Transacao) (c : Conta) :
  if teve_sucesso (fst (executar_transacao t c))
  then length (registros (historico (snd (executar_transacao t c)))) =
       S (length (registros (historico c)))
  else snd (executar_transacao t c) = c.
Proof.
  destruct t as [v|v|].
  - rewrite sucesso_Deposito.
    unfold executar_transacao, liga, Deposito_executar.
    destruct (0 <? v); simpl; [|reflexivity].
    rewrite length_app, Nat.add_comm. reflexivity.
  - rewrite sucesso_Saque. unfold executar_transacao, liga.
    casos_saque v c; simpl; try reflexivity.
    rewrite length_app, Nat.add_comm. reflexivity.
  - reflexivity.
Qed.

Lemma executar_todas_cons (t : Transacao) (ts : list Transacao) (c : Conta) :
  executar_todas (t :: ts) c =
    (fst (executar_transacao t c)
       :: fst (executar_todas ts (snd (executar_transacao t c))),
     snd (executar_todas ts (snd (executar_transacao t c)))).
Proof.
  simpl. unfold liga at 1 2.
  destruct (executar_transacao t c) as [r c1]. simpl.
  destruct (executar_todas ts c1) as [rs c2]. reflexivity.
Qed.

Lemma historico_executar_todas (ts : list Transacao) (c : Conta) :
  length (registros (historico (snd (executar_todas ts c)))) =
  (length (registros (historico c)) +
   length (List.filter teve_sucesso (fst (executar_todas ts c))))%nat.
Proof.
  revert c. induction ts as [|t ts IH]; intros c.
  - simpl. rewrite Nat.add_0_r. reflexivity.
  - rewrite executar_todas_cons. cbn [fst snd List.filter].
    rewrite IH. pose proof (executar_transacao_passo t c) as Hp.
    destruct (teve_sucesso (fst (executar_transacao t c))).
    + rewrite Hp. simpl. rewrite Nat.add_succ_r. reflexivity.
    + rewrite Hp. reflexivity.
Qed.

Lemma resultados_executar_todas (ts : list Transacao) (c : Conta) :
  length (fst (executar_todas ts c)) = length ts.
Proof.
  revert c. induction ts as [|t ts IH]; intros c; [reflexivity|].
  rewrite executar_todas_cons. simpl. rewrite IH. reflexivity.
Qed.

Lemma chave_sucesso (t : Transacao) (c : Conta) :
  exists b : bool, fst (executar_transacao t c) !! "sucesso"%string = Some (PyBool b).
Proof.
  destruct t as [v|v|]; unfold executar_transacao, liga.
  - destruct (Deposito_executar v c) as [b c']. exists b.
    simpl. apply lookup_singleton_eq.
  - destruct (Saque_executar v c) as [[b m] c']. exists b.
    simpl. rewrite lookup_insert_ne by discriminate.
    apply lookup_singleton_eq.
  - exists false. reflexivity.
Qed.

(** C4: over any sequence of transactions, the history grows by exactly
    the number of transactions that reported success, so that on an
    account as [Conta.__init__] builds it the length of the history is
    that number; a transaction that reports failure leaves the whole
    account (balance, withdrawal count and history) as it was; and every
    transaction returns an outcome, with its success flag, none raises. *)
Theorem historico_conta_sucessos :
  (forall (ts : list Transacao) (c : Conta),
     length (registros (historico (snd (executar_todas ts c)))) =
     (length (registros (historico c)) +
      length (List.filter teve_sucesso (fst (executar_todas ts c))))%nat)
  /\ (forall (ts : list Transacao) ag n cl s l ls,
     length (registros (historico
               (snd (executar_todas ts (Conta_init ag n cl s l ls))))) =
     length (List.filter teve_sucesso
               (fst (executar_todas ts (Conta_init ag n cl s l ls)))))
  /\ (forall (t : Transacao) (c : Conta),
     teve_sucesso (fst (executar_transacao t c)) = false ->
     snd (executar_transacao t c) = c)
  /\ (forall (ts : list Transacao) (c : Conta),
     length (fst (executar_todas ts c)) = length ts)
  /\ (forall (t : Transacao) (c : Conta),
     exists b : bool,
       fst (executar_transacao t c) !! "sucesso"%string = Some (PyBool b)).
Proof.
  split; [exact historico_executar_todas|].
  split; [intros; rewrite historico_executar_todas; reflexivity|].
  split.
  - intros t c H. pose proof (executar_transacao_passo t c) as Hp.
    rewrite H in Hp. exact Hp.
  - split; [exact resultados_executar_todas | exact chave_sucesso].
Qed.

Lemma historico_conta_sucessos_witness :
  snd (executar_transacao (Saque 2000) conta_mil) = conta_mil.
Proof.
  apply (proj1 (proj2 (proj2 historico_conta_sucessos))). reflexivity.
Defined.

Lemma motivo_Saque (v : float) (c : Conta) :
  fst (executar_transacao (Saque v) c) !! "motivo"%string =
  Some (motivo_val (snd (fst (Saque_executar v c)))).
Proof.
  unfold executar_transacao, liga.
  destruct (Saque_executar v c) as [[b m] c']. simpl.
  apply lookup_insert_eq.
Qed.

Lemma Saque_executar_motivo (v : float) (c : Conta) :
  (fst (fst (Saque_executar v c)) = true
   /\ snd (fst (Saque_executar v c)) = None)
  \/ (fst (fst (Saque_executar v c)) = false
      /\ exists s, snd (fst (Saque_executar v c)) = Some s
                   /\ s ∈ motivos_saque).
Proof.
  unfold motivos_saque.
  casos_saque v c; simpl; [right|right|right|right|left; done];
    (split; [done|eexists; split; [done|set_solver]]).
Qed.

(** C5: the outcome of [Conta.executar_transacao] always carries the
    success flag; the reason is absent for every deposit, [None] for a
    successful withdrawal, and a string exactly for a failed withdrawal
    (one of the four reasons of [Saque.executar]) and for an object that
    is neither a deposit nor a withdrawal, whose outcome is failure with
    reason [transacao_desconhecida]. *)
Theorem executar_transacao_motivo :
  (forall (t : Transacao) (c : Conta),
     exists b : bool,
       fst (executar_transacao t c) !! "sucesso"%string = Some (PyBool b))
  /\ (forall (v : float) (c : Conta),
     fst (executar_transacao (Deposito v) c) !! "motivo"%string = None)
  /\ (forall (t : Transacao) (c : Conta),
     teve_sucesso (fst (executar_transacao t c)) = true ->
     fst (executar_transacao t c) !! "motivo"%string = None
     \/ fst (executar_transacao t c) !! "motivo"%string = Some PyNone)
  /\ (forall (v : float) (c : Conta),
     teve_sucesso (fst (executar_transacao (Saque v) c)) = false ->
     exists s, fst (executar_transacao (Saque v) c) !! "motivo"%string
               = Some (PyStr s)
               /\ s ∈ motivos_saque)
  /\ (forall (t : Transacao) (c : Conta) (s : string),
     fst (executar_transacao t c) !! "motivo"%string = Some (PyStr s) ->
     (exists v, t = Saque v
                /\ teve_sucesso (fst (executar_transacao t c)) = false
                /\ s ∈ motivos_saque)
     \/ (t = Outra /\ s = "transacao_desconhecida"%string))
  /\ (forall c : Conta,
     executar_transacao Outra c =
       (<[ "motivo"%string := PyStr "transacao_desconhecida" ]>
          {[ "sucesso"%string := PyBool false ]}, c)).
Proof.
  split; [exact chave_sucesso|].
  split.
  { intros v c. unfold executar_transacao, liga.
    destruct (Deposito_executar v c) as [b c']. simpl.
    apply lookup_singleton_ne. discriminate. }
  split.
  { intros [v|v|] c H.
    - left. unfold executar_transacao, liga.
      destruct (Deposito_executar v c) as [b c']. simpl.
      apply lookup_singleton_ne. discriminate.
    - right. rewrite motivo_Saque. rewrite sucesso_Saque in H.
      destruct (Saque_executar_motivo v c) as [[_ ->] | [H' _]];
        [reflexivity | congruence].
    - discriminate H. }
  split.
  { intros v c H. rewrite motivo_Saque. rewrite sucesso_Saque in H.
    destruct (Saque_executar_motivo v c) as [[H' _] | [_ (s & -> & Hs)]];
      [congruence|]. exists s. split; [reflexivity | exact Hs]. }
  split.
  { intros [v|v|] c s H.
    - exfalso. revert H. unfold executar_transacao, liga.
      destruct (Deposito_executar v c) as [b c']. simpl.
      rewrite lookup_singleton_ne by discriminate. discriminate.
    - left. exists v. rewrite sucesso_Saque. rewrite motivo_Saque in H.
      destruct (Saque_executar_motivo v c) as [[_ E] | [E1 (s' & E & Hs)]];
        rewrite E in H; simpl in H; [discriminate|].
      injection H as <-. auto.
    - right. split; [reflexivity|].
      simpl in H. rewrite lookup_insert_eq in H. congruence. }
  intros c. reflexivity.
Qed.

Lemma executar_transacao_motivo_witness :
  (fst (executar_transacao (Saque 100) conta_mil) !! "motivo"%string = None
   \/ fst (executar_transacao (Saque 100) conta_mil) !! "motivo"%string
      = Some PyNone)
  /\ (exists s, fst (executar_transacao (Saque 600) conta_mil)
                  !! "motivo"%string = Some (PyStr s)
                /\ s ∈ motivos_saque).
Proof.
  split.
  - apply (proj1 (proj2 (proj2 executar_transacao_motivo))). reflexivity.
  - apply (proj1 (proj2 (proj2 (proj2 executar_transacao_motivo)))).
    reflexivity.
Defined.

End Resultados.

(** ** Historico.texto *)

Section Extrato.

Lemma string_app_assoc (a b c : string) : (a ++ b) ++ c = a ++ (b ++ c).
Proof.
  induction a as [|x a IH]; [reflexivity|].
  change (String x ((a ++ b) ++ c) = String x (a ++ (b ++ c))).
  f_equal. exact IH.
Qed.

Lemma concat_cons2 (sep l l' : string) (rs : list string) :
  String.concat sep (l :: l' :: rs) = l ++ sep ++ String.concat sep (l' :: rs).
Proof. reflexivity. Qed.

Lemma concat_nl_linhas (l : string) (rs : list string) :
  String.concat nl (l :: rs) ++ nl = linhas (l :: rs).
Proof.
  revert l. induction rs as [|l' rs IH]; intros l; [reflexivity|].
  rewrite concat_cons2, !string_app_assoc, IH. reflexivity.
Qed.

Lemma texto_linhas_eq (h : Historico) : fst (texto h) = linhas (registros h).
Proof.
  destruct h as [[|l rs]]; [reflexivity|]. apply concat_nl_linhas.
Qed.

Lemma linhas_app (ls ls' : list string) :
  linhas (ls ++ ls')%list = linhas ls ++ linhas ls'.
Proof.
  induction ls as [|l ls IH]; [reflexivity|]. simpl.
  rewrite IH, !string_app_assoc. reflexivity.
Qed.

(** The claim of C9 as it is written (the lines joined by line
    separators) fails on a history of one line: the text ends with a
    line separator that a join does not produce. *)
Lemma texto_join_counterexample :
  fst (texto {| registros := ["Saque:"] |}) <> String.concat nl ["Saque:"]
  /\ fst (texto {| registros := ["Saque:"] |}) = "Saque:" ++ nl.
Proof. split; [discriminate | reflexivity]. Qed.

(** C9, amended: [Historico.texto] returns the empty string for an empty
    history and otherwise the recorded lines joined by line separators
    followed by one more line separator, that is every line, in the order
    of recording, each ended by a line separator; a line recorded later
    comes after the text of the earlier ones; and the history is left as
    it was. *)
Theorem texto_linhas :
  (forall h : Historico, registros h = [] -> fst (texto h) = EmptyString)
  /\ (forall h : Historico, registros h <> [] ->
      fst (texto h) = String.concat nl (registros h) ++ nl)
  /\ (forall h : Historico, fst (texto h) = linhas (registros h))
  /\ (forall (h : Historico) (linha : string),
      fst (texto (snd (registrar linha h))) = fst (texto h) ++ linha ++ nl)
  /\ (forall h : Historico, snd (texto h) = h).
Proof.
  split; [intros [rs] E; simpl in E; subst rs; reflexivity|].
  split.
  { intros [rs] E. unfold texto, liga, esta_vazio. simpl in *.
    destruct rs; [congruence | reflexivity]. }
  split; [exact texto_linhas_eq|].
  split.
  { intros h linha. rewrite !texto_linhas_eq. simpl.
    rewrite linhas_app. reflexivity. }
  intros [rs]. unfold texto, liga, esta_vazio. simpl.
  destruct rs; reflexivity.
Qed.

Lemma texto_linhas_witness :
  fst (texto Historico_novo) = EmptyString
  /\ fst (texto {| registros := ["a"; "b"] |}) =
     String.concat nl ["a"; "b"] ++ nl.
Proof.
  split.
  - apply (proj1 texto_linhas). reflexivity.
  - apply (proj1 (proj2 texto_linhas)). discriminate.
Defined.

End Extrato.

(** ** Whitespace *)

Section Espacos.

Lemma tira_prefixo_length (p s r : string) :
  tira_prefixo p s = Some r ->
  String.length s = (String.length p + String.length r)%nat.
Proof.
  revert s. induction p as [|a p IH]; intros s; cbn [tira_prefixo].
  - intros [= <-]. reflexivity.
  - destruct s as [|b s]; [discriminate|].
    destruct (Ascii.eqb a b); [|discriminate].
    intros H. cbn [String.length]. rewrite (IH _ H). reflexivity.
Qed.

Lemma tira_um_menor (ps : list string) (s r : string) :
  sem_vazio ps = true -> tira_um ps s = Some r ->
  (String.length r < String.length s)%nat.
Proof.
  induction ps as [|p ps IH]; cbn [tira_um sem_vazio forallb];
    [discriminate|].
  intros Hp. apply andb_prop in Hp as [Hp Hps].
  destruct (tira_prefixo p s) as [r'|] eqn:E.
  - intros [= <-]. apply tira_prefixo_length in E.
    destruct p; [discriminate Hp|]. cbn [String.length] in E. lia.
  - apply IH, Hps.
Qed.

(** With at least as many rounds as the string has bytes, nothing of the
    list is left at the start. *)
Lemma tira_todos_fim (n : nat) (ps : list string) (s : string) :
  sem_vazio ps = true -> (String.length s <= n)%nat ->
  tira_um ps (tira_todos n ps s) = None.
Proof.
  intros Hp. revert s. induction n as [|n IH]; intros s Hn;
    cbn [tira_todos].
  - destruct (tira_um ps s) as [r|] eqn:E; [|reflexivity].
    apply (tira_um_menor _ _ _ Hp) in E. lia.
  - destruct (tira_um ps s) as [r|] eqn:E; [|exact E].
    apply IH. apply (tira_um_menor _ _ _ Hp) in E. lia.
Qed.

Lemma rev_app_length (s a : string) :
  String.length (String.rev_app s a)
  = (String.length s + String.length a)%nat.
Proof.
  revert a. induction s as [|c s IH]; intros a; cbn [String.rev_app];
    [reflexivity|].
  rewrite IH. cbn [String.length]. lia.
Qed.

Lemma rev_app_rev_app (s a : string) :
  String.rev_app (String.rev_app s a) EmptyString = String.rev_app a s.
Proof.
  revert a. induction s as [|c s IH]; intros a; cbn [String.rev_app];
    [reflexivity|].
  rewrite IH. reflexivity.
Qed.

Lemma rev_rev (s : string) : String.rev (String.rev s) = s.
Proof. unfold String.rev. apply rev_app_rev_app. Qed.

(** What [lstrip] returns starts with no whitespace character, and what
    [rstrip] returns ends with none. *)
Lemma lstrip_sem_espaco (s : string) : tira_um espacos (lstrip s) = None.
Proof. apply tira_todos_fim; [reflexivity | lia]. Qed.

Lemma rstrip_sem_espaco (s : string) :
  tira_um (List.map String.rev espacos) (String.rev (rstrip s)) = None.
Proof.
  unfold rstrip. rewrite rev_rev. apply tira_todos_fim; [reflexivity|].
  unfold String.rev. rewrite rev_app_length. cbn [String.length]. lia.
Qed.

(** The blanks of [str.isspace] above 127 are stripped as the space and
    the tabulation are, at both ends and not inside. *)
Example strip_espacos_unicode :
  strip (nbsp ++ " 12345678900" ++ espaco_ideografico ++ tab) = "12345678900"
  /\ strip (" Rua" ++ nbsp ++ "A, 1" ++ nbsp) = "Rua" ++ nbsp ++ "A, 1"
  /\ strip (nbsp ++ espaco_ideografico ++ " ") = EmptyString.
Proof. repeat split. Qed.

(** U+200B, the zero width space, and U+0084 are no whitespace for
    [str.isspace], and stay. *)
Example strip_nao_espacos :
  strip (de_bytes [226; 128; 139]%N ++ "q") = de_bytes [226; 128; 139]%N ++ "q"
  /\ strip ("q" ++ de_bytes [194; 132]%N) = "q" ++ de_bytes [194; 132]%N.
Proof. repeat split. Qed.

End Espacos.

(** ** Users and accounts *)

Section Cadastro.

Lemma filtrar_None (cpf0 : string) (usuarios : list PessoaFisica) :
  filtrar_usuario_por_cpf cpf0 usuarios = None <->
  (forall u, u ∈ usuarios -> cpf u <> cpf0).
Proof.
  induction usuarios as [|u us IH]; simpl.
  - split; [intros _ u Hu; inversion Hu | reflexivity].
  - destruct (String.eqb_spec (cpf u) cpf0) as [E|N].
    + split; [discriminate|]. intros H. exfalso.
      apply (H u); [left | exact E].
    + rewrite IH. split.
      * intros H v Hv. apply elem_of_cons in Hv as [->|Hv]; auto.
      * intros H v Hv. apply H. right. exact Hv.
Qed.

Lemma filtrar_Some (cpf0 : string) (usuarios : list PessoaFisica)
    (u : PessoaFisica) :
  filtrar_usuario_por_cpf cpf0 usuarios = Some u ->
  u ∈ usuarios /\ cpf u = cpf0.
Proof.
  induction usuarios as [|v us IH]; simpl; [discriminate|].
  destruct (String.eqb_spec (cpf v) cpf0) as [E|N].
  - intros [= <-]. split; [left | exact E].
  - intros H. destruct (IH H) as [Hin Hc]. split; [right|]; assumption.
Qed.

Lemma filtrar_cadastrado (cpf0 : string) (usuarios : list PessoaFisica) :
  cadastrado cpf0 usuarios ->
  exists u, filtrar_usuario_por_cpf cpf0 usuarios = Some u.
Proof.
  intros (u & Hin & Hc).
  destruct (filtrar_usuario_por_cpf cpf0 usuarios) as [v|] eqn:E; eauto.
  exfalso. apply (proj1 (filtrar_None cpf0 usuarios) E u Hin Hc).
Qed.

(** C6: [criar_conta] reads the owner's id; when no registered person
    has it, the call reports that the user was not found and returns no
    account; when one has it, the call returns a new account of that
    person with the given branch and number, balance zero, ceiling 500.00,
    at most 3 withdrawals, no withdrawal made and an empty history. *)
Theorem criar_conta_usuario (ag : string) (n : Z)
    (usuarios : list PessoaFisica) (linha : string) (resto saida0 : list string) :
  let k := {| entrada := linha :: resto; saida := saida0 |} in
  (~ cadastrado (strip linha) usuarios ->
     criar_conta ag n usuarios k =
       (inr None,
        {| entrada := resto;
           saida := (saida0 ++ ["Informe o CPF do usuário: ";
                                aviso_nao_encontrado])%list |}))
  /\ (cadastrado (strip linha) usuarios ->
     exists (u : PessoaFisica) (conta : Conta),
       fst (criar_conta ag n usuarios k) = inr (Some conta)
       /\ u ∈ usuarios /\ cpf u = strip linha
       /\ cliente conta = u
       /\ agencia conta = ag
       /\ numero_conta conta = n
       /\ saldo conta = 0%float
       /\ limite conta = 500%float
       /\ limite_saques conta = 3
       /\ numero_saques conta = 0
       /\ registros (historico conta) = []).
Proof.
  intros k. split.
  - intros H. unfold criar_conta, io_liga, input, escreve, k. simpl.
    replace (filtrar_usuario_por_cpf (strip linha) usuarios) with
      (@None PessoaFisica).
    + simpl. rewrite <- List.app_assoc. reflexivity.
    + symmetry. apply filtrar_None. intros u Hin Hc. apply H.
      exists u. split; assumption.
  - intros H. destruct (filtrar_cadastrado _ _ H) as [u E].
    destruct (filtrar_Some _ _ _ E) as [Hin Hc].
    exists u. eexists.
    unfold criar_conta, io_liga, input, escreve, k. simpl.
    rewrite E. simpl. repeat split; assumption.
Qed.

Lemma criar_conta_usuario_witness :
  criar_conta "0001" 1 [fulano] {| entrada := ["000"]; saida := [] |} =
    (inr None,
     {| entrada := [];
        saida := ["Informe o CPF do usuário: "; aviso_nao_encontrado] |})
  /\ exists (u : PessoaFisica) (conta : Conta),
       fst (criar_conta "0001" 1 [fulano]
              {| entrada := [nbsp ++ "12345678900 " ++ nbsp]; saida := [] |})
         = inr (Some conta)
       /\ u ∈ [fulano] /\ cpf u = strip (nbsp ++ "12345678900 " ++ nbsp)
       /\ cliente conta = u
       /\ agencia conta = "0001"
       /\ numero_conta conta = 1
       /\ saldo conta = 0%float
       /\ limite conta = 500%float
       /\ limite_saques conta = 3
       /\ numero_saques conta = 0
       /\ registros (historico conta) = [].
Proof.
  split.
  - apply (proj1 (criar_conta_usuario "0001" 1 [fulano] "000" [] [])).
    intros (u & Hin & Hc). apply list_elem_of_singleton in Hin. subst u.
    discriminate Hc.
  - apply (proj2 (criar_conta_usuario "0001" 1 [fulano]
                    (nbsp ++ "12345678900 " ++ nbsp) [] [])).
    exists fulano. split; [left | reflexivity].
Defined.

(** C7: [criar_usuario] reads the id; when a registered person has it,
    the call prints the warning that a user with this id exists and the
    list of persons is the one given, of the same length; when none has
    it, the name, birth date and address are read and exactly one new
    person, with these fields and that id, is appended to the list. *)
Theorem criar_usuario_cpf (usuarios : list PessoaFisica)
    (l0 : string) (resto saida0 : list string) :
  let k := {| entrada := l0 :: resto; saida := saida0 |} in
  (cadastrado (strip l0) usuarios ->
     criar_usuario usuarios k =
       (inr usuarios,
        {| entrada := resto;
           saida := (saida0 ++ ["Informe o CPF (somente números): ";
                                aviso_cpf_duplicado])%list |}))
  /\ (~ cadastrado (strip l0) usuarios ->
      forall (l1 l2 l3 : string) (resto' : list string),
        resto = l1 :: l2 :: l3 :: resto' ->
        exists usuarios',
          fst (criar_usuario usuarios k) = inr usuarios'
          /\ usuarios' =
               (usuarios ++ [ {| nome := strip l1; endereco := strip l3;
                                 cpf := strip l0;
                                 data_nascimento := strip l2 |} ])%list
          /\ length usuarios' = S (length usuarios)
          /\ entrada (snd (criar_usuario usuarios k)) = resto').
Proof.
  intros k. split.
  - intros H. destruct (filtrar_cadastrado _ _ H) as [u E].
    unfold criar_usuario, io_liga, input, escreve, k. simpl.
    rewrite E. simpl. rewrite <- List.app_assoc. reflexivity.
  - intros H l1 l2 l3 resto' ->.
    assert (E : filtrar_usuario_por_cpf (strip l0) usuarios = None).
    { apply filtrar_None. intros u Hin Hc. apply H. exists u. auto. }
    eexists. unfold criar_usuario, io_liga, input, escreve, k. simpl.
    rewrite E. simpl. split; [reflexivity|]. split; [reflexivity|].
    split; [|reflexivity]. rewrite length_app, Nat.add_comm. reflexivity.
Qed.

Lemma criar_usuario_cpf_witness :
  criar_usuario [fulano]
    {| entrada := [nbsp ++ "12345678900"; "Beltrano"]; saida := [] |} =
    (inr [fulano],
     {| entrada := ["Beltrano"];
        saida := ["Informe o CPF (somente números): ";
                  aviso_cpf_duplicado] |})
  /\ exists usuarios',
       fst (criar_usuario [fulano]
              {| entrada := ["111"; "Beltrano"; "02-02-1992"; "Rua B, 2"];
                 saida := [] |}) = inr usuarios'
       /\ usuarios' =
            ([fulano] ++ [ {| nome := strip "Beltrano";
                              endereco := strip "Rua B, 2";
                              cpf := strip "111";
                              data_nascimento := strip "02-02-1992" |} ])%list
       /\ length usuarios' = S (length [fulano])
       /\ entrada (snd (criar_usuario [fulano]
              {| entrada := ["111"; "Beltrano"; "02-02-1992"; "Rua B, 2"];
                 saida := [] |})) = [].
Proof.
  split.
  - apply (proj1 (criar_usuario_cpf [fulano] (nbsp ++ "12345678900")
                    ["Beltrano"] [])).
    exists fulano. split; [left | reflexivity].
  - apply (proj2 (criar_usuario_cpf [fulano] "111"
                    ["Beltrano"; "02-02-1992"; "Rua B, 2"] [])
             ltac:(intros (u & Hin & Hc);
                   apply list_elem_of_singleton in Hin; subst u;
                   discriminate Hc)
             "Beltrano" "02-02-1992" "Rua B, 2" []).
    reflexivity.
Defined.

End Cadastro.

(** ** Descriptions *)

Section Descricoes.

Local Open Scope float_scope.

(** [centesimos] is exact when the value is an integer, and a nearest
    integer to a hundred times the value otherwise. *)
Lemma centesimos_exato (m : positive) (e : Z) :
  (0 <= e)%Z -> Z.of_N (centesimos m e) = (Z.pos m * 2 ^ e * 100)%Z.
Proof.
  intros H. unfold centesimos. apply Z.leb_le in H as H'. rewrite H'.
  rewrite Z2N.id; [lia|]. pose proof (Z.pow_nonneg 2 e). lia.
Qed.

Lemma centesimos_proximo (m : positive) (e : Z) :
  (e < 0)%Z ->
  (2 * Z.abs (Z.of_N (centesimos m e) * 2 ^ (- e) - Z.pos m * 100)
   <= 2 ^ (- e))%Z.
Proof.
  intros H. unfold centesimos. destruct (Z.leb_spec 0 e) as [?|_]; [lia|].
  assert (Hd : (0 < 2 ^ (- e))%Z) by (apply Z.pow_pos_nonneg; lia).
  set (d := (2 ^ (- e))%Z) in *. set (n := (Z.pos m * 100)%Z).
  pose proof (Z.div_mod n d ltac:(lia)) as Hdm.
  pose proof (Z.mod_pos_bound n d Hd) as Hr.
  assert (Hq : (0 <= n / d)%Z) by (apply Z.div_pos; lia).
  destruct (Z.compare_spec (2 * (n mod d)) d) as [E|L|G];
    [destruct (Z.even (n / d))| |]; rewrite Z2N.id by lia; nia.
Qed.

Lemma format_2f_finito (a : float) :
  is_finite a = true -> duas_casas_decimais (format_2f a).
Proof.
  intros Hf. unfold format_2f, duas_casas_decimais.
  destruct (is_finite_SF a Hf) as [[s E] | (s & m & e & E)]; rewrite E.
  - exists s, 0%N, 0%N, 0%N. repeat split.
  - exists s, (centesimos m e / 100)%N, ((centesimos m e / 10) mod 10)%N,
      (centesimos m e mod 10)%N.
    split; [apply N.mod_lt; discriminate|].
    split; [apply N.mod_lt; discriminate|]. reflexivity.
Qed.

(** The claim of C8 as it is written fails on the scenario it gives: the
    deposit of 150.00 on a new account succeeds, and the line recorded is
    not the one the claim quotes; and a deposit of an infinite amount
    succeeds with a line that has no decimals. *)
Lemma descricao_counterexample :
  (teve_sucesso (fst (executar_transacao (Deposito 150)
                        (conta_nova "0001" 1 fulano))) = true
   /\ registros (historico (snd (executar_transacao (Deposito 150)
                                  (conta_nova "0001" 1 fulano))))
      <> [("Deposit:" ++ tab ++ "R$ 150.00")%string])
  /\ (teve_sucesso (fst (executar_transacao (Deposito infinity)
                           (conta_nova "0001" 1 fulano))) = true
      /\ registros (historico (snd (executar_transacao (Deposito infinity)
                                     (conta_nova "0001" 1 fulano))))
         = [("Depósito:" ++ tab ++ "R$ inf")%string]).
Proof.
  split; (split; [reflexivity|]); [|reflexivity].
  vm_compute. discriminate.
Qed.

(** C8, amended: a successful deposit appends the line made of the label
    [Depósito:], a tab, [R$ ] and the amount in the format [.2f]; a
    successful withdrawal appends the line made of the label [Saque:], two
    tabs, [R$ ] and the amount in the format [.2f]; the two labels tell
    the variants apart; for a finite amount the formatted amount is a
    fixed-point text with two decimals; and on a new account the deposit
    of 150.00 succeeds and leaves the history with the single line
    [Depósito:<tab>R$ 150.00]. *)
Theorem descricao_formato :
  (forall (a : float) (c : Conta),
     teve_sucesso (fst (executar_transacao (Deposito a) c)) = true ->
     registros (historico (snd (executar_transacao (Deposito a) c))) =
     (registros (historico c)
        ++ [("Depósito:" ++ tab ++ "R$ " ++ format_2f a)%string])%list)
  /\ (forall (a : float) (c : Conta),
     teve_sucesso (fst (executar_transacao (Saque a) c)) = true ->
     registros (historico (snd (executar_transacao (Saque a) c))) =
     (registros (historico c)
        ++ [("Saque:" ++ tab ++ tab ++ "R$ " ++ format_2f a)%string])%list)
  /\ (forall a b : float, Deposito_descricao a <> Saque_descricao b)
  /\ (forall a : float,
     is_finite a = true -> duas_casas_decimais (format_2f a))
  /\ (forall (ag : string) (n : Z) (u : PessoaFisica),
     teve_sucesso (fst (executar_transacao (Deposito 150)
                          (conta_nova ag n u))) = true
     /\ registros (historico (snd (executar_transacao (Deposito 150)
                                    (conta_nova ag n u)))) =
        [("Depósito:" ++ tab ++ "R$ 150.00")%string]).
Proof.
  split.
  { intros a c H. rewrite sucesso_Deposito in H.
    unfold executar_transacao, liga.
    rewrite (Deposito_executar_sucesso a c H). reflexivity. }
  split.
  { intros a c H. rewrite sucesso_Saque in H. revert H.
    unfold executar_transacao, liga.
    casos_saque a c; simpl; try discriminate. reflexivity. }
  split; [intros a b; discriminate|].
  split; [exact format_2f_finito|].
  intros ag n u. split; reflexivity.
Qed.

Lemma descricao_formato_witness :
  registros (historico (snd (executar_transacao (Saque 100) conta_mil))) =
    (registros (historico conta_mil)
       ++ [("Saque:" ++ tab ++ tab ++ "R$ " ++ format_2f 100)%string])%list
  /\ duas_casas_decimais (format_2f 150).
Proof.
  split.
  - apply (proj1 (proj2 descricao_formato)). reflexivity.
  - apply (proj1 (proj2 (proj2 (proj2 descricao_formato)))). reflexivity.
Defined.

End Descricoes.

(** ** Withdrawing the whole balance *)

Section SaqueTotal.

Local Open Scope float_scope.

Lemma nan_neq_zero : nan <> 0.
Proof. intros H. apply (f_equal Prim2SF) in H. discriminate H. Qed.

(** The claim of C10 as it is written fails on an account whose balance
    and ceiling are both infinite: the balance is positive, not above the
    ceiling, the count is below the maximum, the withdrawal of the whole
    balance succeeds, and the balance it leaves is not a number. *)
Lemma saque_total_counterexample :
  (0 <? saldo conta_infinita) = true
  /\ (saldo conta_infinita <=? limite conta_infinita) = true
  /\ (numero_saques conta_infinita < limite_saques conta_infinita)%Z
  /\ fst (Saque_executar (saldo conta_infinita) conta_infinita) = (true, None)
  /\ saldo (snd (Saque_executar (saldo conta_infinita) conta_infinita)) = nan
  /\ saldo (snd (Saque_executar (saldo conta_infinita) conta_infinita)) <> 0.
Proof.
  repeat split. exact nan_neq_zero.
Qed.

(** C10, amended: the comparisons with the balance and with the ceiling
    are strict.  A positive amount that is neither above the balance nor
    above the ceiling is withdrawn when the count is below the maximum; a
    withdrawal of exactly the ceiling is never rejected with
    [excede_limite]; and when the balance is finite, positive and not
    above the ceiling and the count is below the maximum, the withdrawal
    of the whole balance succeeds and leaves the balance exactly zero,
    which is the case of every such balance under a finite ceiling. *)
Theorem saque_total :
  (forall (v : float) (c : Conta),
     (0 <? v) = true -> (v <=? saldo c) = true -> (v <=? limite c) = true ->
     (numero_saques c < limite_saques c)%Z ->
     fst (Saque_executar v c) = (true, None))
  /\ (forall c : Conta,
     snd (fst (Saque_executar (limite c) c)) <> Some "excede_limite"%string)
  /\ (forall c : Conta,
     is_finite (saldo c) = true ->
     (0 <? saldo c) = true -> (saldo c <=? limite c) = true ->
     (numero_saques c < limite_saques c)%Z ->
     exists c',
       Saque_executar (saldo c) c = (true, None, c')
       /\ saldo c' = 0
       /\ numero_saques c' = (numero_saques c + 1)%Z
       /\ registros (historico c') =
          (registros (historico c) ++ [Saque_descricao (saldo c)])%list
       /\ mesmos_dados c c')
  /\ (forall c : Conta,
     is_finite (limite c) = true ->
     (0 <? saldo c) = true -> (saldo c <=? limite c) = true ->
     (numero_saques c < limite_saques c)%Z ->
     fst (Saque_executar (saldo c) c) = (true, None)
     /\ saldo (snd (Saque_executar (saldo c) c)) = 0).
Proof.
  assert (Hfin : forall c : Conta,
     is_finite (saldo c) = true ->
     (0 <? saldo c) = true -> (saldo c <=? limite c) = true ->
     (numero_saques c < limite_saques c)%Z ->
     Saque_executar (saldo c) c =
       (true, None,
        {| agencia := agencia c; numero_conta := numero_conta c;
           cliente := cliente c; saldo := 0;
           limite := limite c; limite_saques := limite_saques c;
           numero_saques := numero_saques c + 1;
           historico :=
             {| registros :=
                  (registros (historico c)
                     ++ [Saque_descricao (saldo c)])%list |} |})).
  { intros c Hf H0 H1 H3.
    rewrite Saque_executar_sucesso; auto using
      ltb_true_leb_false, leb_true_ltb_false, ltb_irrefl.
    rewrite sub_diag_finite by assumption. reflexivity. }
  split.
  { intros v c H0 H1 H2 H3.
    rewrite (Saque_executar_sucesso v c); auto using
      ltb_true_leb_false, leb_true_ltb_false. }
  split.
  { intros c. casos_saque (limite c) c; simpl; try discriminate.
    rewrite ltb_irrefl in *. discriminate. }
  split.
  { intros c Hf H0 H1 H3. eexists. split; [apply Hfin; assumption|].
    repeat split. }
  intros c Hl H0 H1 H3.
  rewrite Hfin; eauto using limitado_finito.
Qed.

Lemma saque_total_witness :
  fst (Saque_executar 500 conta_mil) = (true, None)
  /\ exists c',
       Saque_executar (saldo conta_quinhentos) conta_quinhentos
         = (true, None, c')
       /\ saldo c' = 0
       /\ numero_saques c' = (numero_saques conta_quinhentos + 1)%Z
       /\ registros (historico c') =
          (registros (historico conta_quinhentos)
             ++ [Saque_descricao (saldo conta_quinhentos)])%list
       /\ mesmos_dados conta_quinhentos c'.
Proof.
  split.
  - apply (proj1 saque_total 500 conta_mil); reflexivity.
  - apply (proj1 (proj2 (proj2 saque_total)) conta_quinhentos);
      reflexivity.
Defined.

End SaqueTotal.

(** ** The invariants of an account *)

Section Invariantes.

Local Open Scope float_scope.

Lemma limites_executar_transacao (t : Transacao) (c : Conta) :
  limite (snd (executar_transacao t c)) = limite c
  /\ limite_saques (snd (executar_transacao t c)) = limite_saques c.
Proof.
  destruct t as [v|v|]; unfold executar_transacao, liga.
  - unfold Deposito_executar. destruct (0 <? v); split; reflexivity.
  - casos_saque v c; split; reflexivity.
  - split; reflexivity.
Qed.

(** One transaction keeps the invariants, when the ceiling is finite and
    the amount of a withdrawal is a number. *)
Lemma invariante_passo (t : Transacao) (c : Conta) :
  invariante c -> is_finite (limite c) = true -> valor_numerico t ->
  invariante (snd (executar_transacao t c)).
Proof.
  intros [Hs Hn] Hl Hv. destruct t as [v|v|]; [| |exact (conj Hs Hn)].
  - unfold executar_transacao, liga, Deposito_executar.
    destruct (0 <? v) eqn:Hpos; [|exact (conj Hs Hn)].
    split; [apply add_nao_negativo; assumption | exact Hn].
  - simpl in Hv. unfold executar_transacao, liga.
    casos_saque v c; try exact (conj Hs Hn). split; simpl.
    + destruct (positivo_limitado (limite c) v) as (m & e & E); try assumption.
      apply (sub_nao_negativo (saldo c) v m e); assumption.
    + match goal with
      | H : (_ <=? _)%Z = false |- _ => apply Z.leb_gt in H; lia
      end.
Qed.

(** Over a sequence of deposits and withdrawals whose withdrawal amounts
    are numbers, applied to an account with a finite ceiling, the balance
    stays non-negative and the withdrawal count stays within the
    maximum. *)
Theorem invariante_executar_todas (ts : list Transacao) (c : Conta) :
  invariante c -> is_finite (limite c) = true ->
  Forall valor_numerico ts ->
  invariante (snd (executar_todas ts c)).
Proof.
  revert c. induction ts as [|t ts IH]; intros c Hi Hl Hv; [exact Hi|].
  rewrite executar_todas_cons. cbn [snd].
  apply Forall_cons in Hv as [Ht Hts].
  apply IH; [apply invariante_passo; assumption | | exact Hts].
  rewrite (proj1 (limites_executar_transacao t c)). exact Hl.
Qed.

(** X5: on an account with a finite ceiling whose balance is not negative
    and whose withdrawal count is within the maximum, after any number of
    the transactions of a sequence whose withdrawal amounts are numbers,
    the balance is still not negative and the count still within the
    maximum. *)
Corollary invariante_cada_passo (ts : list Transacao) (c : Conta) (n : nat) :
  invariante c -> is_finite (limite c) = true ->
  Forall valor_numerico ts ->
  invariante (snd (executar_todas (take n ts) c)).
Proof.
  intros Hi Hl Hv. apply invariante_executar_todas; [exact Hi | exact Hl |].
  apply Forall_take, Hv.
Qed.

Lemma invariante_executar_todas_witness :
  invariante
    (snd (executar_todas [Deposito 150; Saque 500.5; Saque 100; Saque 50]
            (conta_nova "0001" 1 fulano))).
Proof.
  apply invariante_executar_todas.
  - split; [reflexivity | discriminate].
  - reflexivity.
  - repeat constructor.
Defined.

(** C3: the invariant on the balance does not survive the withdrawal of
    an amount that is not a number.  On a new account, whose balance is
    zero and whose withdrawal count is zero, [Saque(nan)] passes the four
    checks, reports success, and leaves a balance that is not a number,
    for which [balance >= 0] is false. *)
Theorem saque_nan_invariante :
  invariante (conta_nova "0001" 1 fulano)
  /\ numero_saques (conta_nova "0001" 1 fulano) = 0%Z
  /\ teve_sucesso (fst (executar_transacao (Saque nan)
                          (conta_nova "0001" 1 fulano))) = true
  /\ saldo (snd (executar_transacao (Saque nan)
                   (conta_nova "0001" 1 fulano))) = nan
  /\ numero_saques (snd (executar_transacao (Saque nan)
                           (conta_nova "0001" 1 fulano))) = 1%Z
  /\ (0 <=? saldo (snd (executar_transacao (Saque nan)
                          (conta_nova "0001" 1 fulano)))) = false
  /\ ~ invariante (snd (executar_transacao (Saque nan)
                          (conta_nova "0001" 1 fulano))).
Proof.
  split; [split; [reflexivity | discriminate]|].
  repeat (split; [reflexivity|]).
  intros [H _]. discriminate H.
Qed.

End Invariantes.

(** ** Scenarios *)

Section Cenarios.

Local Open Scope float_scope.

(** A new account: a deposit of 150.00, then a withdrawal above the balance,
    then a withdrawal of 100.00. *)
Example cenario_deposito_saque :
  map (fun r => (r !! "sucesso", r !! "motivo"))
    (fst (executar_todas [Deposito 150; Saque 500.5; Saque 100]
            (conta_nova "0001" 1 fulano)))
  = [(Some (PyBool true), None);
     (Some (PyBool false), Some (PyStr "saldo_insuficiente"));
     (Some (PyBool true), Some PyNone)]%string
  /\ saldo (snd (executar_todas [Deposito 150; Saque 500.5; Saque 100]
                   (conta_nova "0001" 1 fulano))) = 50
  /\ numero_saques (snd (executar_todas [Deposito 150; Saque 500.5; Saque 100]
                           (conta_nova "0001" 1 fulano))) = 1%Z.
Proof. repeat split. Qed.

(** The ceiling: 600 is refused on a balance of 1000. *)
Example cenario_limite :
  Saque_executar 600 conta_mil = (false, Some "excede_limite"%string, conta_mil).
Proof. reflexivity. Qed.

(** The maximum: after three withdrawals of 100 the fourth is refused and
    the balance stays at 700. *)
Example cenario_numero_saques :
  numero_saques conta_mil_3_saques = 3%Z
  /\ saldo conta_mil_3_saques = 700
  /\ Saque_executar 100 conta_mil_3_saques =
       (false, Some "excede_numero_saques"%string, conta_mil_3_saques).
Proof. repeat split. Qed.

End Cenarios.


(** * Further properties *)

(** ** Sequences of transactions *)

Section Sequencias.

Local Open Scope float_scope.

Lemma dados_executar_transacao (t : Transacao) (c : Conta) :
  mesmos_dados c (snd (executar_transacao t c)).
Proof.
  destruct t as [v|v|]; unfold executar_transacao, liga.
  - unfold Deposito_executar. destruct (0 <? v); repeat split.
  - casos_saque v c; repeat split.
  - repeat split.
Qed.

Lemma registros_executar_transacao (t : Transacao) (c : Conta) :
  registros (historico c)
    `prefix_of` registros (historico (snd (executar_transacao t c))).
Proof.
  destruct t as [v|v|]; unfold executar_transacao, liga.
  - unfold Deposito_executar. destruct (0 <? v); simpl;
      [apply prefix_app_r|]; reflexivity.
  - casos_saque v c; simpl; try reflexivity. apply prefix_app_r. reflexivity.
  - reflexivity.
Qed.

(** X1: the history is only ever appended to: whatever the transactions and
    their outcomes, the lines recorded before are still there, in the same
    order, at the start of the history. *)
Theorem historico_so_cresce (ts : list Transacao) (c : Conta) :
  registros (historico c)
    `prefix_of` registros (historico (snd (executar_todas ts c))).
Proof.
  revert c. induction ts as [|t ts IH]; intros c; [reflexivity|].
  rewrite executar_todas_cons. cbn [snd].
  etransitivity; [apply registros_executar_transacao | apply IH].
Qed.

(** X2: no sequence of transactions changes the branch, the number, the owner,
    the ceiling or the maximum number of withdrawals of an account. *)
Theorem dados_executar_todas (ts : list Transacao) (c : Conta) :
  mesmos_dados c (snd (executar_todas ts c)).
Proof.
  revert c. induction ts as [|t ts IH]; intros c; [repeat split|].
  rewrite executar_todas_cons. cbn [snd].
  destruct (dados_executar_transacao t c) as (A1 & A2 & A3 & A4 & A5).
  destruct (IH (snd (executar_transacao t c))) as (B1 & B2 & B3 & B4 & B5).
  repeat split; congruence.
Qed.

Lemma numero_saques_passo (t : Transacao) (c : Conta) :
  numero_saques (snd (executar_transacao t c)) =
    (numero_saques c
     + (if saque_com_sucesso (t, fst (executar_transacao t c)) then 1 else 0))%Z
  /\ ((numero_saques c <= limite_saques c)%Z ->
      (numero_saques (snd (executar_transacao t c)) <= limite_saques c)%Z).
Proof.
  unfold saque_com_sucesso. cbn [fst snd].
  destruct t as [v|v|].
  - unfold executar_transacao, liga, Deposito_executar.
    destruct (0 <? v); simpl; split; lia.
  - rewrite sucesso_Saque. unfold executar_transacao, liga.
    casos_saque v c; simpl; split; lia.
  - simpl. split; lia.
Qed.

(** X3: the withdrawal count goes up by exactly the number of withdrawals that
    reported success; so, on an account whose count is within the maximum,
    no sequence of transactions, whatever the amounts, has more successful
    withdrawals than the maximum leaves room for. *)
Theorem numero_saques_executar_todas (ts : list Transacao) (c : Conta) :
  numero_saques (snd (executar_todas ts c)) =
    (numero_saques c
     + Z.of_nat (length (List.filter saque_com_sucesso
                           (combine ts (fst (executar_todas ts c))))))%Z
  /\ ((numero_saques c <= limite_saques c)%Z ->
      (numero_saques c
       + Z.of_nat (length (List.filter saque_com_sucesso
                             (combine ts (fst (executar_todas ts c)))))
       <= limite_saques c)%Z).
Proof.
  assert (H : numero_saques (snd (executar_todas ts c)) =
    (numero_saques c
     + Z.of_nat (length (List.filter saque_com_sucesso
                           (combine ts (fst (executar_todas ts c))))))%Z
    /\ ((numero_saques c <= limite_saques c)%Z ->
        (numero_saques (snd (executar_todas ts c)) <= limite_saques c)%Z)).
  { revert c. induction ts as [|t ts IH]; intros c; [simpl; split; lia|].
    rewrite executar_todas_cons. cbn [fst snd combine List.filter].
    destruct (numero_saques_passo t c) as [E1 L1].
    destruct (IH (snd (executar_transacao t c))) as [E2 L2].
    rewrite (proj2 (proj2 (proj2 (proj2 (dados_executar_transacao t c)))))
      in L2.
    split; [|lia]. rewrite E2, E1.
    destruct (saque_com_sucesso (t, fst (executar_transacao t c)));
      simpl length; lia. }
  destruct H as [E L]. split; [exact E | intros Hle; specialize (L Hle); lia].
Qed.

Lemma numero_saques_executar_todas_witness :
  (numero_saques conta_mil
   + Z.of_nat (length (List.filter saque_com_sucesso
        (combine [Saque 100; Saque 100; Deposito 5; Saque 100; Saque 100]
           (fst (executar_todas
                   [Saque 100; Saque 100; Deposito 5; Saque 100; Saque 100]
                   conta_mil)))))
   <= limite_saques conta_mil)%Z.
Proof.
  apply (proj2 (numero_saques_executar_todas
                  [Saque 100; Saque 100; Deposito 5; Saque 100; Saque 100]
                  conta_mil)).
  discriminate.
Defined.

(** X4: once the withdrawal count has reached the maximum, withdrawals do
    nothing: whatever the amounts and however many, each one fails and the
    account stays exactly as it was. *)
Theorem saques_esgotados (vs : list float) (c : Conta) :
  (limite_saques c <= numero_saques c)%Z ->
  snd (executar_todas (Saque <$> vs) c) = c
  /\ Forall (fun r => teve_sucesso r = false)
       (fst (executar_todas (Saque <$> vs) c)).
Proof.
  intros H. induction vs as [|v vs [IH1 IH2]]; [split; [reflexivity|constructor]|].
  rewrite fmap_cons, executar_todas_cons. cbn [fst snd].
  assert (E : executar_transacao (Saque v) c
              = (fst (executar_transacao (Saque v) c), c)
              /\ teve_sucesso (fst (executar_transacao (Saque v) c)) = false).
  { rewrite sucesso_Saque. unfold executar_transacao, liga.
    casos_saque v c; simpl; try (split; reflexivity).
    match goal with
    | H' : (_ <=? _)%Z = false |- _ => apply Z.leb_gt in H'; lia
    end. }
  destruct E as [E1 E2]. rewrite E1. cbn [fst snd].
  split; [exact IH1 | constructor; [exact E2 | exact IH2]].
Qed.

Lemma saques_esgotados_witness :
  snd (executar_todas (Saque <$> [100; 50; 1000]) conta_mil_3_saques)
    = conta_mil_3_saques
  /\ Forall (fun r => teve_sucesso r = false)
       (fst (executar_todas (Saque <$> [100; 50; 1000]) conta_mil_3_saques)).
Proof. apply saques_esgotados. discriminate. Defined.

End Sequencias.

(** ** The history and its text *)

Section Historicos.

Local Open Scope float_scope.

Lemma linhas_cons_nao_vazio (l : string) (ls : list string) :
  linhas (l :: ls) <> EmptyString.
Proof. destruct l; discriminate. Qed.

(** X6: the text of a history is empty exactly when nothing was recorded, even
    if the lines recorded are themselves empty; [esta_vazio] says so, and
    after a line is recorded the history is not empty. *)
Theorem texto_vazio_sse_sem_registros (h : Historico) :
  (fst (texto h) = EmptyString <-> registros h = [])
  /\ (fst (esta_vazio h) = true <-> registros h = [])
  /\ (forall linha : string,
       fst (esta_vazio (snd (registrar linha h))) = false
       /\ fst (texto (snd (registrar linha h))) <> EmptyString).
Proof.
  split; [|split].
  - rewrite texto_linhas_eq. destruct (registros h) as [|l ls].
    + split; reflexivity.
    + split; [intros E; destruct (linhas_cons_nao_vazio l ls E) | discriminate].
  - unfold esta_vazio. cbn [fst]. destruct (registros h); split;
      try reflexivity; discriminate.
  - intros linha. split.
    + unfold esta_vazio, registrar. cbn [fst snd registros].
      rewrite length_app, Nat.add_comm. reflexivity.
    + rewrite texto_linhas_eq. unfold registrar. cbn [snd registros].
      destruct (registros h); apply linhas_cons_nao_vazio.
Qed.

Lemma sem_nl_app (a b : string) : sem_nl (a ++ b) = sem_nl a && sem_nl b.
Proof.
  induction a as [|c a IH]; [reflexivity|].
  change (sem_nl (String c (a ++ b)) = sem_nl (String c a) && sem_nl b).
  cbn [sem_nl]. rewrite IH, andb_assoc. reflexivity.
Qed.

(** Two texts that agree up to their first line separator agree on what
    comes before it and on what comes after it. *)
Lemma primeira_linha (a b x y : string) :
  sem_nl a = true -> sem_nl b = true ->
  a ++ nl ++ x = b ++ nl ++ y -> a = b /\ x = y.
Proof.
  revert b. induction a as [|c a IH]; intros [|d b] Ha Hb E.
  - injection E as E. auto.
  - injection E as E1 E2. subst d. discriminate Hb.
  - injection E as E1 E2. subst c. discriminate Ha.
  - change (String c (a ++ nl ++ x) = String d (b ++ nl ++ y)) in E.
    injection E as E1 E2. cbn [sem_nl] in Ha, Hb.
    apply andb_prop in Ha as [_ Ha]. apply andb_prop in Hb as [_ Hb].
    destruct (IH b Ha Hb E2) as [-> ->]. subst d. auto.
Qed.

Lemma linhas_inj (ls ls' : list string) :
  Forall (fun l => sem_nl l = true) ls ->
  Forall (fun l => sem_nl l = true) ls' ->
  linhas ls = linhas ls' -> ls = ls'.
Proof.
  intros H. revert ls'. induction H as [|l ls Hl Hls IH]; intros ls' H' E.
  - destruct ls' as [|l' ls']; [reflexivity|].
    symmetry in E. destruct (linhas_cons_nao_vazio l' ls' E).
  - destruct H' as [|l' ls' Hl' Hls'].
    + destruct (linhas_cons_nao_vazio l ls E).
    + cbn [linhas] in E.
      destruct (primeira_linha l l' _ _ Hl Hl' E) as [-> E'].
      f_equal. apply IH; assumption.
Qed.

Lemma sem_nl_string_of_uint (d : Decimal.uint) :
  sem_nl (NilEmpty.string_of_uint d) = true.
Proof. induction d; simpl; auto. Qed.

Lemma sem_nl_decimal (n : N) : sem_nl (decimal n) = true.
Proof.
  unfold decimal, NilZero.string_of_uint.
  destruct (N.to_uint n); try reflexivity;
    apply (sem_nl_string_of_uint (_ _)).
Qed.

Lemma sem_nl_digito (n : N) : sem_nl (digito (n mod 10)) = true.
Proof.
  pose proof (N.mod_lt n 10 ltac:(discriminate)) as Hlt.
  set (r := (n mod 10)%N) in *. clearbody r.
  unfold digito. cbn [sem_nl]. rewrite andb_true_r.
  apply negb_true_iff, Ascii.eqb_neq. intros E.
  apply (f_equal N_of_ascii) in E.
  rewrite N_ascii_embedding in E by (apply N.lt_le_trans with 58%N; lia).
  change (N_of_ascii "010") with 10%N in E. lia.
Qed.

Lemma sem_nl_format_2f (v : float) : sem_nl (format_2f v) = true.
Proof.
  unfold format_2f, duas_casas.
  destruct (Prim2SF v) as [s|s| |s m e]; try (destruct s; reflexivity);
    [reflexivity|].
  rewrite !sem_nl_app, sem_nl_decimal, !sem_nl_digito.
  destruct s; reflexivity.
Qed.

Lemma sem_nl_descricao (v : float) :
  sem_nl (Deposito_descricao v) = true /\ sem_nl (Saque_descricao v) = true.
Proof.
  unfold Deposito_descricao, Saque_descricao.
  rewrite !sem_nl_app, sem_nl_format_2f. split; reflexivity.
Qed.

Lemma sem_nl_executar_transacao (t : Transacao) (c : Conta) :
  Forall (fun l => sem_nl l = true) (registros (historico c)) ->
  Forall (fun l => sem_nl l = true)
    (registros (historico (snd (executar_transacao t c)))).
Proof.
  intros H. destruct t as [v|v|]; unfold executar_transacao, liga.
  - unfold Deposito_executar. destruct (0 <? v); simpl; [|exact H].
    apply Forall_app. split; [exact H|].
    constructor; [apply sem_nl_descricao | constructor].
  - casos_saque v c; simpl; try exact H.
    apply Forall_app. split; [exact H|].
    constructor; [apply sem_nl_descricao | constructor].
  - exact H.
Qed.

Lemma sem_nl_executar_todas (ts : list Transacao) (c : Conta) :
  Forall (fun l => sem_nl l = true) (registros (historico c)) ->
  Forall (fun l => sem_nl l = true)
    (registros (historico (snd (executar_todas ts c)))).
Proof.
  revert c. induction ts as [|t ts IH]; intros c H; [exact H|].
  rewrite executar_todas_cons. cbn [snd].
  apply IH, sem_nl_executar_transacao, H.
Qed.

(** X7: the text of a history tells its lines: two histories made of lines
    without line separator that have the same text have the same lines.
    The lines that transactions record are such lines, so two accounts
    that started from a new account and show the same history text
    recorded the same lines. *)
Theorem texto_determina_registros :
  (forall h1 h2 : Historico,
     Forall (fun l => sem_nl l = true) (registros h1) ->
     Forall (fun l => sem_nl l = true) (registros h2) ->
     fst (texto h1) = fst (texto h2) -> registros h1 = registros h2)
  /\ (forall (ts1 ts2 : list Transacao) ag1 n1 u1 s1 l1 m1 ag2 n2 u2 s2 l2 m2,
     fst (texto (historico (snd (executar_todas ts1
                                   (Conta_init ag1 n1 u1 s1 l1 m1))))) =
     fst (texto (historico (snd (executar_todas ts2
                                   (Conta_init ag2 n2 u2 s2 l2 m2))))) ->
     registros (historico (snd (executar_todas ts1
                                  (Conta_init ag1 n1 u1 s1 l1 m1)))) =
     registros (historico (snd (executar_todas ts2
                                  (Conta_init ag2 n2 u2 s2 l2 m2))))).
Proof.
  assert (H : forall h1 h2 : Historico,
     Forall (fun l => sem_nl l = true) (registros h1) ->
     Forall (fun l => sem_nl l = true) (registros h2) ->
     fst (texto h1) = fst (texto h2) -> registros h1 = registros h2).
  { intros h1 h2 H1 H2. rewrite !texto_linhas_eq. apply linhas_inj; assumption. }
  split; [exact H|]. intros. apply H; try assumption;
    apply sem_nl_executar_todas; constructor.
Qed.

Lemma texto_determina_registros_witness :
  registros (snd (registrar "b" {| registros := ["a"]%string |})) =
  registros {| registros := ["a"; "b"]%string |}.
Proof.
  apply (proj1 texto_determina_registros);
    [repeat constructor | repeat constructor | reflexivity].
Defined.

End Historicos.

(** ** Looking persons and accounts up *)

Section Procuras.

Lemma filtrar_Some_sse (cpf0 : string) (us : list PessoaFisica)
    (u : PessoaFisica) :
  filtrar_usuario_por_cpf cpf0 us = Some u <->
  exists antes depois,
    us = (antes ++ u :: depois)%list /\ cpf u = cpf0
    /\ Forall (fun v => cpf v <> cpf0) antes.
Proof.
  revert u. induction us as [|v us IH]; intros u; simpl.
  - split; [discriminate|]. intros ([|? ?] & ? & E & _); discriminate E.
  - destruct (String.eqb_spec (cpf v) cpf0) as [E|N].
    + split.
      * intros [= <-]. exists [], us. repeat split; [exact E | constructor].
      * intros ([|w antes] & depois & E1 & E2 & E3).
        -- injection E1 as -> _. reflexivity.
        -- injection E1 as -> _. apply Forall_cons in E3 as [E3 _].
           contradiction.
    + rewrite IH. split.
      * intros (antes & depois & -> & E2 & E3).
        exists (v :: antes), depois. repeat split; [exact E2|].
        constructor; assumption.
      * intros ([|w antes] & depois & E1 & E2 & E3).
        -- injection E1 as -> _. contradiction.
        -- injection E1 as -> ->. apply Forall_cons in E3 as [_ E3].
           exists antes, depois. auto.
Qed.

Lemma filtrar_proprio (usuarios : list PessoaFisica) (u : PessoaFisica) :
  NoDup (cpf <$> usuarios) -> u ∈ usuarios ->
  filtrar_usuario_por_cpf (cpf u) usuarios = Some u.
Proof.
  intros Hnd Hin. apply list_elem_of_split in Hin as (antes & depois & ->).
  apply filtrar_Some_sse. exists antes, depois. repeat split.
  rewrite fmap_app, fmap_cons in Hnd.
  apply NoDup_app in Hnd as (_ & Hnd & _).
  apply Forall_forall. intros v Hv Hc. apply (Hnd (cpf v)).
  - apply list_elem_of_fmap. exists v. auto.
  - rewrite Hc. left.
Qed.

(** X8: [filtrar_usuario_por_cpf] returns the first person of the list with
    the id: the persons before it have another id; it returns nothing
    exactly when no person has the id; and on a list without repeated ids
    every person of the list is found by its own id. *)
Theorem filtrar_primeiro (cpf0 : string) (usuarios : list PessoaFisica) :
  (forall u : PessoaFisica,
     filtrar_usuario_por_cpf cpf0 usuarios = Some u <->
     exists antes depois,
       usuarios = (antes ++ u :: depois)%list /\ cpf u = cpf0
       /\ Forall (fun v => cpf v <> cpf0) antes)
  /\ (filtrar_usuario_por_cpf cpf0 usuarios = None <->
      Forall (fun v => cpf v <> cpf0) usuarios)
  /\ (NoDup (cpf <$> usuarios) ->
      forall u, u ∈ usuarios -> cpf u = cpf0 ->
        filtrar_usuario_por_cpf cpf0 usuarios = Some u).
Proof.
  split; [intros u; apply filtrar_Some_sse|]. split.
  - rewrite filtrar_None, Forall_forall. reflexivity.
  - intros Hnd u Hin <-. apply filtrar_proprio; assumption.
Qed.

Lemma filtrar_primeiro_witness :
  filtrar_usuario_por_cpf (cpf fulano) [fulano] = Some fulano.
Proof.
  apply (proj2 (proj2 (filtrar_primeiro (cpf fulano) [fulano]))).
  - repeat constructor. intros H. inversion H.
  - left.
  - reflexivity.
Defined.

Lemma procurar_conta_Some (n : Z) (cs : list Conta) (i : nat) (c : Conta) :
  procurar_conta n cs = Some (i, c) ->
  cs !! i = Some c /\ numero_conta c = n
  /\ (forall j c', (j < i)%nat -> cs !! j = Some c' -> numero_conta c' <> n).
Proof.
  revert i. induction cs as [|c0 cs IH]; intros i; simpl; [discriminate|].
  destruct (Z.eqb_spec (numero_conta c0) n) as [E|N].
  - intros [= <- <-]. repeat split; [exact E|]. intros j c' Hj. lia.
  - destruct (procurar_conta n cs) as [[i' c1]|]; [|discriminate].
    intros [= <- <-]. destruct (IH i' eq_refl) as (A & B & C).
    repeat split; [exact A | exact B |].
    intros [|j] c' Hj Hl; [injection Hl as <-; exact N|].
    apply (C j c'); [lia | exact Hl].
Qed.

Lemma procurar_conta_None (n : Z) (cs : list Conta) :
  procurar_conta n cs = None <-> Forall (fun c => numero_conta c <> n) cs.
Proof.
  induction cs as [|c0 cs IH]; simpl.
  - split; [constructor | reflexivity].
  - destruct (Z.eqb_spec (numero_conta c0) n) as [E|N].
    + split; [discriminate|]. intros H. apply Forall_cons in H as [H _].
      contradiction.
    + destruct (procurar_conta n cs) as [[i' c1]|].
      * split; [discriminate|]. intros H. apply Forall_cons in H as [_ H].
        apply IH in H. discriminate H.
      * split; [|reflexivity]. intros _. constructor; [exact N|].
        apply IH. reflexivity.
Qed.

(** X9: the account the driver picks for a number is the first of the list
    with that number, at the place returned; no account is picked exactly
    when none has the number. *)
Theorem procurar_conta_primeira (n : Z) (cs : list Conta) :
  (forall (i : nat) (c : Conta),
     procurar_conta n cs = Some (i, c) ->
     cs !! i = Some c /\ numero_conta c = n
     /\ (forall j c', (j < i)%nat -> cs !! j = Some c' ->
                      numero_conta c' <> n))
  /\ (procurar_conta n cs = None <->
      Forall (fun c => numero_conta c <> n) cs).
Proof.
  split; [intros i c; apply procurar_conta_Some | apply procurar_conta_None].
Qed.

Lemma procurar_conta_primeira_witness :
  [conta_quinhentos; conta_mil] !! 0%nat = Some conta_quinhentos
  /\ numero_conta conta_quinhentos = 1
  /\ (forall j c', (j < 0)%nat ->
        [conta_quinhentos; conta_mil] !! j = Some c' ->
        numero_conta c' <> 1).
Proof.
  apply (proj1 (procurar_conta_primeira 1 [conta_quinhentos; conta_mil])).
  reflexivity.
Defined.

End Procuras.

(** ** Registering and opening at the console *)

Section Console_.

Lemma print_eq (s : string) (k : Console) :
  print s k =
    (inr tt, {| entrada := entrada k;
                saida := (saida k ++ [(s ++ nl)%string])%list |}).
Proof. reflexivity. Qed.

Lemma input_cons (p l : string) (r o : list string) :
  input p {| entrada := l :: r; saida := o |} =
    (inr l, {| entrada := r; saida := (o ++ [p])%list |}).
Proof. reflexivity. Qed.

Lemma input_nil (p : string) (o : list string) :
  input p {| entrada := []; saida := o |} =
    (inl EOFError, {| entrada := []; saida := (o ++ [p])%list |}).
Proof. reflexivity. Qed.

(** What [criar_usuario] can return: the list it was given, or that list
    with one person more, whose id no person of the list had. *)
Lemma criar_usuario_retorno (us us' : list PessoaFisica) (k k' : Console) :
  criar_usuario us k = (inr us', k') ->
  us' = us
  \/ exists pf, us' = (us ++ [pf])%list /\ ~ cadastrado (cpf pf) us.
Proof.
  destruct k as [[|l0 r0] o]; unfold criar_usuario, io_liga.
  - rewrite input_nil. discriminate.
  - rewrite input_cons.
    destruct (filtrar_usuario_por_cpf (strip l0) us) as [u|] eqn:E.
    + rewrite print_eq. intros [= <- _]. left. reflexivity.
    + destruct r0 as [|l1 [|l2 [|l3 r3]]]; cbn [entrada saida];
        rewrite ?input_cons, ?input_nil; try discriminate.
      rewrite print_eq. intros [= <- _]. right. eexists. split; [reflexivity|].
      cbn [cpf]. intros (u & Hin & Hc).
      apply (proj1 (filtrar_None (strip l0) us) E u Hin Hc).
Qed.

(** X10: [criar_usuario] keeps the ids distinct and the persons it was given:
    when the ids of the list are pairwise distinct, so are the ids of the
    list it returns, which starts with the given list and has at most one
    person more. *)
Theorem criar_usuario_cpfs_distintos (us us' : list PessoaFisica)
    (k k' : Console) :
  NoDup (cpf <$> us) ->
  criar_usuario us k = (inr us', k') ->
  NoDup (cpf <$> us') /\ us `prefix_of` us'
  /\ (length us' <= S (length us))%nat.
Proof.
  intros Hnd H. destruct (criar_usuario_retorno us us' k k' H)
    as [-> | (pf & -> & Hf)].
  - split; [exact Hnd|]. split; [reflexivity | lia].
  - split; [|split].
    + rewrite fmap_app. apply NoDup_app. repeat split; [exact Hnd| |].
      * intros x Hx Hx'. apply list_elem_of_singleton in Hx'. subst x.
        apply list_elem_of_fmap in Hx as (u & Hc & Hin).
        apply Hf. exists u. auto.
      * repeat constructor. intros Hx. inversion Hx.
    + apply prefix_app_r. reflexivity.
    + rewrite length_app. simpl. lia.
Qed.

Lemma criar_usuario_cpfs_distintos_witness :
  NoDup (cpf <$> fst (sessao_usuarios))
  /\ [fulano] `prefix_of` fst sessao_usuarios
  /\ (length (fst sessao_usuarios) <= S (length [fulano]))%nat.
Proof.
  apply (criar_usuario_cpfs_distintos [fulano] _
           {| entrada := ["111"; "Beltrano"; "02-02-1992"; "Rua B, 2"];
              saida := [] |} (snd sessao_usuarios)).
  - repeat constructor. intros H. inversion H.
  - reflexivity.
Defined.

(** X11: when the input ends before the four fields of a new person are read,
    or before the id is read, [criar_usuario] raises [EOFError]; and
    [criar_conta] raises it when there is no line to read the id from.
    Nothing is returned: no person is registered, no account is opened. *)
Theorem fim_da_entrada :
  (forall (us : list PessoaFisica) (o : list string),
     fst (criar_usuario us {| entrada := []; saida := o |}) = inl EOFError)
  /\ (forall (us : list PessoaFisica) (l0 : string) (r o : list string),
     ~ cadastrado (strip l0) us -> (length r < 3)%nat ->
     fst (criar_usuario us {| entrada := l0 :: r; saida := o |})
       = inl EOFError)
  /\ (forall (ag : string) (n : Z) (us : list PessoaFisica) (o : list string),
     fst (criar_conta ag n us {| entrada := []; saida := o |}) = inl EOFError).
Proof.
  split; [reflexivity|]. split; [|reflexivity].
  intros us l0 r o Hf Hr. unfold criar_usuario, io_liga. rewrite input_cons.
  replace (filtrar_usuario_por_cpf (strip l0) us) with (@None PessoaFisica).
  - destruct r as [|l1 [|l2 [|l3 r3]]]; cbn [entrada saida];
      rewrite ?input_cons, ?input_nil; try reflexivity.
    simpl in Hr. lia.
  - symmetry. apply filtrar_None. intros u Hin Hc. apply Hf. exists u. auto.
Qed.

Lemma fim_da_entrada_witness :
  fst (criar_usuario [fulano]
         {| entrada := ["111" ++ nbsp; "Beltrano"; "02-02-1992"];
            saida := [] |})
    = inl EOFError.
Proof.
  apply (proj1 (proj2 fim_da_entrada)); [|simpl; lia].
  intros (u & Hin & Hc). apply list_elem_of_singleton in Hin. subst u.
  discriminate Hc.
Defined.

(** X12: registering and then using the id.  After a person with an id that
    nobody had is registered, registering that id again is refused and
    leaves the list as it is, and opening an account for that id gives an
    account whose owner is the person just registered.  The id is compared
    after stripping, so the surrounding blanks typed with it do not
    matter. *)
Theorem cadastro_depois_uso (us : list PessoaFisica)
    (l0 l1 l2 l3 l4 : string) (r o : list string) (ag : string) (n : Z) :
  ~ cadastrado (strip l0) us -> strip l4 = strip l0 ->
  exists (k1 : Console) (conta : Conta),
    let pf := {| nome := strip l1; endereco := strip l3; cpf := strip l0;
                 data_nascimento := strip l2 |} in
    criar_usuario us
      {| entrada := l0 :: l1 :: l2 :: l3 :: l4 :: r; saida := o |}
      = (inr (us ++ [pf])%list, k1)
    /\ entrada k1 = l4 :: r
    /\ fst (criar_usuario (us ++ [pf])%list k1) = inr (us ++ [pf])%list
    /\ fst (criar_conta ag n (us ++ [pf])%list k1) = inr (Some conta)
    /\ cliente conta = pf.
Proof.
  intros Hf E4.
  assert (E : filtrar_usuario_por_cpf (strip l0) us = None).
  { apply filtrar_None. intros u Hin Hc. apply Hf. exists u. auto. }
  set (pf := {| nome := strip l1; endereco := strip l3; cpf := strip l0;
                data_nascimento := strip l2 |}).
  assert (E' : filtrar_usuario_por_cpf (strip l4) (us ++ [pf])%list = Some pf).
  { rewrite E4. apply filtrar_Some_sse. exists us, [].
    repeat split. apply Forall_forall. intros v Hv Hc.
    apply Hf. exists v. auto. }
  eexists. eexists. cbn zeta. split.
  - unfold criar_usuario, io_liga. rewrite input_cons, E.
    cbn [entrada saida]. rewrite !input_cons, print_eq. reflexivity.
  - cbn [entrada saida]. split; [reflexivity|]. split.
    + unfold criar_usuario, io_liga. rewrite input_cons. fold pf.
      rewrite E'. reflexivity.
    + unfold criar_conta, io_liga. rewrite input_cons. fold pf.
      rewrite E'. split; reflexivity.
Qed.

Lemma cadastro_depois_uso_witness :
  exists (k1 : Console) (conta : Conta),
    let pf := {| nome := strip "Beltrano"; endereco := strip "Rua B, 2";
                 cpf := strip "111 "; data_nascimento := strip "02-02-1992" |} in
    criar_usuario [fulano]
      {| entrada := ["111 "; "Beltrano"; "02-02-1992"; "Rua B, 2";
                     nbsp ++ "111"];
         saida := [] |}
      = (inr ([fulano] ++ [pf])%list, k1)
    /\ entrada k1 = [nbsp ++ "111"]
    /\ fst (criar_usuario ([fulano] ++ [pf])%list k1)
       = inr ([fulano] ++ [pf])%list
    /\ fst (criar_conta "0001" 2 ([fulano] ++ [pf])%list k1)
       = inr (Some conta)
    /\ cliente conta = pf.
Proof.
  apply (cadastro_depois_uso [fulano] "111 " "Beltrano" "02-02-1992"
           "Rua B, 2" (nbsp ++ "111") [] [] "0001" 2); [|reflexivity].
  intros (u & Hin & Hc). apply list_elem_of_singleton in Hin. subst u.
  discriminate Hc.
Defined.

End Console_.

(** ** The statement and the listing *)

Section Exibicao.

Lemma exibir_extrato_eq (c : Conta) (k : Console) :
  exibir_extrato c k =
    (inr c,
     {| entrada := entrada k;
        saida :=
          (saida k ++
           [(nl ++ "================ EXTRATO ================" ++ nl)%string;
            ((match registros (historico c) with
              | [] => "Não foram realizadas movimentações."
              | _ => linhas (registros (historico c))
              end) ++ nl)%string;
            (nl ++ "Saldo:" ++ tab ++ tab ++ "R$ " ++ format_2f (saldo c)
                ++ nl)%string;
            ("==========================================" ++ nl)%string])%list
     |}).
Proof.
  destruct c as [ag n u s l ls ns [rs]].
  unfold exibir_extrato, io_liga. rewrite print_eq.
  destruct rs as [|r rs].
  - cbn. rewrite <- !List.app_assoc. reflexivity.
  - unfold no_historico. cbn [historico esta_vazio registros length Nat.eqb].
    pose proof (texto_linhas_eq {| registros := r :: rs |}) as E.
    destruct (texto {| registros := r :: rs |}) as [t h] eqn:Et.
    cbn [fst] in E. subst t.
    assert (Eh : h = {| registros := r :: rs |}).
    { change h with (snd (linhas (registros {| registros := r :: rs |}), h)).
      rewrite <- Et. reflexivity. }
    subst h. cbn -[linhas format_2f nl tab String.append].
    rewrite <- !List.app_assoc. cbn -[linhas format_2f nl tab String.append].
    rewrite !string_app_assoc. reflexivity.
Qed.

(** X13: [Conta.exibir_extrato] is a read: it returns the account as it was,
    reads no input, raises nothing and writes four texts after what was
    written before: the header, the body, the balance with two decimals
    and the footer.  The body is the notice that there were no movements
    when the history is empty, and otherwise every recorded line, in
    order, each ended by a line separator. *)
Theorem exibir_extrato_saida (c : Conta) (k : Console) :
  exibir_extrato c k =
    (inr c,
     {| entrada := entrada k;
        saida :=
          (saida k ++
           [(nl ++ "================ EXTRATO ================" ++ nl)%string;
            ((match registros (historico c) with
              | [] => "Não foram realizadas movimentações."
              | _ => linhas (registros (historico c))
              end) ++ nl)%string;
            (nl ++ "Saldo:" ++ tab ++ tab ++ "R$ " ++ format_2f (saldo c)
                ++ nl)%string;
            ("==========================================" ++ nl)%string])%list
     |}).
Proof. apply exibir_extrato_eq. Qed.

Lemma listar_laco_saida (cs : list Conta) (k : Console) :
  listar_laco cs k =
    (inr tt,
     {| entrada := entrada k;
        saida :=
          (saida k ++
           flat_map (fun c => [(repete 60 "=" ++ nl)%string;
                               (linha_conta c ++ nl)%string]) cs)%list
     |}).
Proof.
  revert k. induction cs as [|c cs IH]; intros k.
  - simpl. rewrite List.app_nil_r. destruct k; reflexivity.
  - cbn [listar_laco flat_map]. unfold io_liga. rewrite !print_eq, IH.
    cbn [entrada saida]. rewrite <- !List.app_assoc. reflexivity.
Qed.

Lemma listar_contas_eq (cs : list Conta) (k : Console) :
  listar_contas cs k =
    (inr tt,
     {| entrada := entrada k;
        saida :=
          (saida k ++
           match cs with
           | [] => [(nl ++ "@@@ Não há contas cadastradas. @@@" ++ nl)%string]
           | _ => flat_map (fun c => [(repete 60 "=" ++ nl)%string;
                                      (linha_conta c ++ nl)%string]) cs
           end)%list |})
  /\ String.length (repete 60 "=") = 60%nat.
Proof.
  split; [|reflexivity]. destruct cs as [|c cs].
  - unfold listar_contas. rewrite print_eq, string_app_assoc. reflexivity.
  - apply listar_laco_saida.
Qed.

(** X14: [listar_contas] writes the notice that there are no accounts when the
    list is empty, and otherwise, for every account in the order of the
    list, a rule of sixty [=] and the branch, number and owner's name of
    the account; it reads no input and raises nothing. *)
Theorem listar_contas_saida (cs : list Conta) (k : Console) :
  listar_contas cs k =
    (inr tt,
     {| entrada := entrada k;
        saida :=
          (saida k ++
           match cs with
           | [] => [(nl ++ "@@@ Não há contas cadastradas. @@@" ++ nl)%string]
           | _ => flat_map (fun c => [(repete 60 "=" ++ nl)%string;
                                      (linha_conta c ++ nl)%string]) cs
           end)%list |})
  /\ String.length (repete 60 "=") = 60%nat.
Proof. apply listar_contas_eq. Qed.

End Exibicao.

(** ** The main loop *)

Section Console_acoes.

Lemma comportada_retorna {A : Type} (a : A) : comportada (io_retorna a).
Proof. intros k. split; [reflexivity | discriminate]. Qed.

Lemma comportada_liga {A B : Type} (m : IO A) (f : A -> IO B) :
  comportada m -> (forall a, comportada (f a)) -> comportada (io_liga m f).
Proof.
  intros Hm Hf k. unfold io_liga. destruct (Hm k) as [H1 H2].
  destruct (m k) as [[e|a] k1]; cbn [fst snd] in *.
  - split; [exact H1 | intros e' _; apply (H2 e); reflexivity].
  - destruct (Hf a k1) as [H3 H4]. split; [lia | exact H4].
Qed.

Lemma comportada_print (s : string) : comportada (print s).
Proof. intros k. split; [reflexivity | discriminate]. Qed.

Lemma comportada_input (p : string) : comportada (input p).
Proof.
  intros [[|l r] o]; unfold restante; cbn; split;
    [lia | reflexivity | lia | discriminate].
Qed.


Lemma io_pos_retorna {A : Type} (a : A) (Q : A -> Prop) :
  Q a -> io_pos (io_retorna a) Q.
Proof. intros H k a' k' [= <- _]. exact H. Qed.

Lemma io_pos_liga {A B : Type} (m : IO A) (f : A -> IO B)
    (P : A -> Prop) (Q : B -> Prop) :
  io_pos m P -> (forall a, P a -> io_pos (f a) Q) -> io_pos (io_liga m f) Q.
Proof.
  intros Hm Hf k b k'. unfold io_liga.
  destruct (m k) as [[e|a] k1] eqn:E; [discriminate|].
  intros H. apply (Hf a (Hm k a k1 E) k1 b k' H).
Qed.

Lemma io_pos_qualquer {A : Type} (m : IO A) : io_pos m (fun _ => True).
Proof. intros k a k' _. exact I. Qed.

End Console_acoes.

Create HintDb console.

(** Goes through a console action, one construct at a time. *)
Ltac comporta :=
  repeat first
    [ apply comportada_retorna
    | apply comportada_print
    | apply comportada_input
    | solve [auto with console]
    | apply comportada_liga; [|intros ?]
    | match goal with
      | |- comportada (match ?x with _ => _ end) => destruct x
      end ].

Section Acoes_do_programa.

Variable py_int : string -> option Z.
Variable py_float : string -> option float.

Lemma comportada_criar_usuario (us : list PessoaFisica) :
  comportada (criar_usuario us).
Proof. unfold criar_usuario. comporta. Qed.

Lemma comportada_criar_conta (ag : string) (n : Z) (us : list PessoaFisica) :
  comportada (criar_conta ag n us).
Proof. unfold criar_conta. comporta. Qed.

Lemma comportada_exibir_extrato (c : Conta) : comportada (exibir_extrato c).
Proof.
  intros k. rewrite exibir_extrato_eq. split; [reflexivity | discriminate].
Qed.

Lemma comportada_listar_contas (cs : list Conta) :
  comportada (listar_contas cs).
Proof.
  intros k. rewrite (proj1 (listar_contas_eq cs k)).
  split; [reflexivity | discriminate].
Qed.

Lemma comportada_escolher_conta (p : string) (st : Estado) :
  comportada (escolher_conta py_int p st).
Proof. unfold escolher_conta. comporta. Qed.

Lemma comportada_ler_valor (p : string) : comportada (ler_valor py_float p).
Proof. unfold ler_valor. comporta. Qed.

End Acoes_do_programa.

#[local] Hint Resolve comportada_criar_usuario comportada_criar_conta
  comportada_exibir_extrato comportada_listar_contas
  comportada_escolher_conta comportada_ler_valor : console.

Section Laco.

Variable py_int : string -> option Z.
Variable py_float : string -> option float.



Lemma escolher_conta_pos (p : string) (st : Estado) :
  io_pos (escolher_conta py_int p st)
    (fun r => forall i c, r = Some (i, c) -> contas st !! i = Some c).
Proof.
  unfold escolher_conta. destruct (contas st) as [|c0 cs] eqn:Ec.
  - eapply io_pos_liga; [apply io_pos_qualquer|]. intros _ _.
    apply io_pos_retorna. discriminate.
  - eapply io_pos_liga; [apply io_pos_qualquer|]. intros l _.
    destruct (py_int l) as [n|].
    + destruct (procurar_conta n (c0 :: cs)) as [[i c]|] eqn:Ep.
      * apply io_pos_retorna. intros i' c' [= <- <-].
        apply (procurar_conta_Some n _ i c Ep).
      * eapply io_pos_liga; [apply io_pos_qualquer|]. intros _ _.
        apply io_pos_retorna. discriminate.
    + eapply io_pos_liga; [apply io_pos_qualquer|]. intros _ _.
      apply io_pos_retorna. discriminate.
Qed.

Lemma ler_valor_pos (p : string) :
  io_pos (ler_valor py_float p)
    (fun r => forall v, r = Some v -> lido py_float v).
Proof.
  unfold ler_valor. eapply io_pos_liga; [apply io_pos_qualquer|].
  intros l _. destruct (py_float l) as [v|] eqn:E.
  - apply io_pos_retorna. intros v' [= <-]. exists l. exact E.
  - eapply io_pos_liga; [apply io_pos_qualquer|]. intros _ _.
    apply io_pos_retorna. discriminate.
Qed.

Lemma exibir_extrato_pos (c : Conta) :
  io_pos (exibir_extrato c) (fun c' => c' = c).
Proof. intros k c' k'. rewrite exibir_extrato_eq. intros [= <- _]. reflexivity. Qed.

Lemma criar_conta_pos (ag : string) (n : Z) (us : list PessoaFisica) :
  io_pos (criar_conta ag n us)
    (fun r => forall c, r = Some c ->
       exists u, u ∈ us
         /\ c = Conta_init ag n u saldo_padrao limite_padrao
                 limite_saques_padrao).
Proof.
  unfold criar_conta. eapply io_pos_liga; [apply io_pos_qualquer|].
  intros l _. destruct (filtrar_usuario_por_cpf (strip l) us) as [u|] eqn:E.
  - eapply io_pos_liga; [apply io_pos_qualquer|]. intros _ _.
    apply io_pos_retorna. intros c [= <-]. exists u.
    split; [apply (filtrar_Some _ _ _ E) | reflexivity].
  - eapply io_pos_liga; [apply io_pos_qualquer|]. intros _ _.
    apply io_pos_retorna. discriminate.
Qed.

Lemma guarda_conta_id (i : nat) (c : Conta) (st : Estado) :
  contas st !! i = Some c -> guarda_conta i c st = st.
Proof.
  intros H. destruct st as [us cs n]. unfold guarda_conta. cbn in *.
  rewrite list_insert_id by exact H. reflexivity.
Qed.

(** What a turn of the loop does to the variables of [main]. *)
Lemma iteracao_passo (st : Estado) :
  io_pos (iteracao py_int py_float st)
    (fun r => passo (lido py_float) st (snd r)).
Proof.
  unfold iteracao. eapply io_pos_liga; [apply io_pos_qualquer|].
  intros linha _.
  destruct (String.eqb (lower (strip linha)) "d").
  { eapply io_pos_liga; [apply escolher_conta_pos|].
    intros [[i c]|] Hc; [|apply io_pos_retorna; constructor].
    eapply io_pos_liga; [apply ler_valor_pos|].
    intros [v|] Hv; [|apply io_pos_retorna; constructor].
    destruct (executar_transacao (Deposito v) c) as [r c1] eqn:E.
    eapply io_pos_liga; [apply io_pos_qualquer|]. intros _ _.
    apply io_pos_retorna. cbn [snd].
    replace c1 with (snd (executar_transacao (Deposito v) c))
      by (rewrite E; reflexivity).
    apply passo_deposito; auto. }
  destruct (String.eqb (lower (strip linha)) "s").
  { eapply io_pos_liga; [apply escolher_conta_pos|].
    intros [[i c]|] Hc; [|apply io_pos_retorna; constructor].
    eapply io_pos_liga; [apply ler_valor_pos|].
    intros [v|] Hv; [|apply io_pos_retorna; constructor].
    destruct (atribui_limite_saques LIMITE_SAQUES c) as [u c1] eqn:E1.
    destruct (executar_transacao (Saque v) c1) as [r c2] eqn:E2.
    eapply io_pos_liga; [apply io_pos_qualquer|]. intros _ _.
    apply io_pos_retorna. cbn [snd].
    replace c2 with (snd (executar_transacao (Saque v)
                            (snd (atribui_limite_saques LIMITE_SAQUES c))))
      by (rewrite E1; cbn [snd]; rewrite E2; reflexivity).
    apply passo_saque; auto. }
  destruct (String.eqb (lower (strip linha)) "e").
  { eapply io_pos_liga; [apply escolher_conta_pos|].
    intros [[i c]|] Hc; [|apply io_pos_retorna; constructor].
    eapply io_pos_liga; [apply exibir_extrato_pos|]. intros c1 ->.
    apply io_pos_retorna. cbn [snd].
    rewrite guarda_conta_id by auto. constructor. }
  destruct (String.eqb (lower (strip linha)) "nu").
  { intros k r k'. unfold io_liga.
    destruct (criar_usuario (usuarios st) k) as [[e|us1] k1] eqn:E;
      [discriminate|].
    intros [= <- _]. cbn [snd].
    destruct (criar_usuario_retorno _ _ _ _ E) as [-> | (pf & -> & Hf)].
    - destruct st; constructor.
    - apply passo_usuario, Hf. }
  destruct (String.eqb (lower (strip linha)) "nc").
  { eapply io_pos_liga; [apply criar_conta_pos|].
    intros [c|] Hc; [|apply io_pos_retorna; constructor].
    destruct (Hc c eq_refl) as (u & Hin & ->).
    apply io_pos_retorna. cbn [snd]. apply passo_conta, Hin. }
  destruct (String.eqb (lower (strip linha)) "lc").
  { eapply io_pos_liga; [apply io_pos_qualquer|]. intros _ _.
    apply io_pos_retorna. constructor. }
  destruct (String.eqb (lower (strip linha)) "q").
  { apply io_pos_retorna. constructor. }
  eapply io_pos_liga; [apply io_pos_qualquer|]. intros _ _.
  apply io_pos_retorna. constructor.
Qed.

(** A run of the loop that ends at [q] is a chain of such turns. *)
Lemma main_laco_passos (voltas : nat) (st : Estado) (k : Console)
    (st' : Estado) (k' : Console) :
  main_laco py_int py_float voltas st k = Some (inr st', k') ->
  rtc (passo (lido py_float)) st st'.
Proof.
  revert st k. induction voltas as [|voltas IH]; intros st k; [discriminate|].
  cbn [main_laco].
  destruct (iteracao py_int py_float st k) as [[e|[[] st1]] k1] eqn:E;
    [discriminate| |].
  - intros [= <- _]. apply rtc_once. apply (iteracao_passo st k _ k1 E).
  - intros H. eapply rtc_l; [apply (iteracao_passo st k _ k1 E)|].
    apply (IH _ _ H).
Qed.


End Laco.

(** ** What the program keeps true *)

Section Invariantes_do_programa.

Local Open Scope float_scope.

Lemma fmap_insert_mesmo {B : Type} (f : Conta -> B) (cs : list Conta)
    (i : nat) (c c' : Conta) :
  cs !! i = Some c -> f c' = f c -> f <$> <[ i := c' ]> cs = f <$> cs.
Proof.
  intros H E. rewrite list_fmap_insert, E. apply list_insert_id.
  rewrite list_lookup_fmap, H. reflexivity.
Qed.

Lemma dados_saque_driver (v : float) (c : Conta) :
  let c' := snd (executar_transacao (Saque v)
                   (snd (atribui_limite_saques LIMITE_SAQUES c))) in
  agencia c' = agencia c /\ numero_conta c' = numero_conta c
  /\ cliente c' = cliente c /\ limite c' = limite c
  /\ limite_saques c' = LIMITE_SAQUES.
Proof.
  cbn zeta.
  destruct (dados_executar_transacao (Saque v)
              (snd (atribui_limite_saques LIMITE_SAQUES c)))
    as (A1 & A2 & A3 & A4 & A5).
  repeat split; assumption.
Qed.

Lemma passo_numeros (V : float -> Prop) (st st' : Estado) :
  numeros_em_sequencia st -> passo V st st' -> numeros_em_sequencia st'.
Proof.
  intros [H1 H2] [|i c v Hc _|i c v Hc _|pf _|u _]; [split; assumption| | | |].
  - unfold numeros_em_sequencia, guarda_conta. cbn [contas numero_conta_seq].
    rewrite length_insert.
    rewrite (fmap_insert_mesmo numero_conta _ i c) by
      (try exact Hc; apply dados_executar_transacao).
    split; assumption.
  - unfold numeros_em_sequencia, guarda_conta. cbn [contas numero_conta_seq].
    rewrite length_insert.
    rewrite (fmap_insert_mesmo numero_conta _ i c) by
      (try exact Hc; apply dados_saque_driver).
    split; assumption.
  - split; assumption.
  - unfold numeros_em_sequencia. cbn [contas numero_conta_seq].
    rewrite fmap_app, length_app, Nat.add_1_r, seq_S, fmap_app, H1.
    cbn [length fmap list_fmap Conta_init numero_conta]. split; [|lia].
    f_equal. f_equal. lia.
Qed.

Lemma passo_titulares (V : float -> Prop) (st st' : Estado) :
  titulares_cadastrados st -> passo V st st' -> titulares_cadastrados st'.
Proof.
  intros [H1 H2] [|i c v Hc _|i c v Hc _|pf Hf|u Hu]; [split; assumption| | | |].
  - split; [exact H1|]. cbn [contas guarda_conta usuarios].
    apply Forall_insert; [exact H2|].
    rewrite (proj1 (proj2 (proj2 (dados_executar_transacao _ c)))).
    apply (Forall_lookup_1 _ _ _ _ H2 Hc).
  - split; [exact H1|]. cbn [contas guarda_conta usuarios].
    apply Forall_insert; [exact H2|].
    rewrite (proj1 (proj2 (proj2 (dados_saque_driver v c)))).
    apply (Forall_lookup_1 _ _ _ _ H2 Hc).
  - split; cbn [usuarios contas].
    + rewrite fmap_app. apply NoDup_app. repeat split; [exact H1| |].
      * intros x Hx Hx'. apply list_elem_of_singleton in Hx'. subst x.
        apply list_elem_of_fmap in Hx as (u & Hc & Hin).
        apply Hf. exists u. auto.
      * repeat constructor. intros Hx. inversion Hx.
    + eapply Forall_impl; [exact H2|]. intros c Hc. cbn beta in *.
      apply elem_of_app. left. exact Hc.
  - split; [exact H1|]. cbn [usuarios contas].
    apply Forall_app. split; [exact H2|]. constructor; [exact Hu|constructor].
Qed.

Lemma passo_contas_padrao (V : float -> Prop) (st st' : Estado) :
  contas_padrao st -> passo V st st' -> contas_padrao st'.
Proof.
  unfold contas_padrao.
  intros H [|i c v Hc _|i c v Hc _|pf Hf|u Hu]; [exact H| | |exact H|].
  - cbn [contas guarda_conta]. apply Forall_insert; [exact H|].
    destruct (Forall_lookup_1 _ _ _ _ H Hc) as (A1 & A2 & A3 & A4).
    destruct (dados_executar_transacao (Deposito v) c)
      as (B1 & B2 & B3 & B4 & B5).
    destruct (numero_saques_passo (Deposito v) c) as [E L].
    rewrite B1, B4, B5, A1, A2, A3. repeat split; try reflexivity.
    + rewrite E. destruct (saque_com_sucesso _); lia.
    + rewrite <- A3. apply L. lia.
  - cbn [contas guarda_conta]. apply Forall_insert; [exact H|].
    destruct (Forall_lookup_1 _ _ _ _ H Hc) as (A1 & A2 & A3 & A4).
    destruct (dados_saque_driver v c) as (B1 & B2 & B3 & B4 & B5).
    destruct (numero_saques_passo (Saque v)
                (snd (atribui_limite_saques LIMITE_SAQUES c))) as [E L].
    rewrite B1, B4, B5, A1, A2. repeat split; try reflexivity.
    + rewrite E. cbn [atribui_limite_saques snd numero_saques].
      destruct (saque_com_sucesso _); lia.
    + apply L. cbn [atribui_limite_saques snd numero_saques limite_saques].
      lia.
  - cbn [contas]. apply Forall_app. split; [exact H|].
    constructor; [|constructor]. repeat split; discriminate.
Qed.

Lemma passo_saldos (V : float -> Prop) (st st' : Estado) :
  (forall v, V v -> is_nan v = false) ->
  contas_padrao st -> saldos_nao_negativos st -> passo V st st' ->
  saldos_nao_negativos st'.
Proof.
  unfold contas_padrao, saldos_nao_negativos.
  intros HV Hp H [|i c v Hc Hv|i c v Hc Hv|pf Hf|u Hu];
    [exact H| | |exact H|].
  - cbn [contas guarda_conta]. apply Forall_insert; [exact H|].
    destruct (Forall_lookup_1 _ _ _ _ Hp Hc) as (A1 & A2 & A3 & A4).
    apply (invariante_passo (Deposito v) c).
    + split; [apply (Forall_lookup_1 _ _ _ _ H Hc) | lia].
    + rewrite A2. reflexivity.
    + exact I.
  - cbn [contas guarda_conta]. apply Forall_insert; [exact H|].
    destruct (Forall_lookup_1 _ _ _ _ Hp Hc) as (A1 & A2 & A3 & A4).
    apply (invariante_passo (Saque v)
             (snd (atribui_limite_saques LIMITE_SAQUES c))).
    + split; [apply (Forall_lookup_1 _ _ _ _ H Hc) | cbn; lia].
    + cbn [atribui_limite_saques snd limite]. rewrite A2. reflexivity.
    + apply HV, Hv.
  - cbn [contas]. apply Forall_app. split; [exact H|].
    constructor; [reflexivity|constructor].
Qed.

Lemma passo_cresce (V : float -> Prop) (st st' : Estado) :
  passo V st st' ->
  usuarios st `prefix_of` usuarios st'
  /\ (numero_conta <$> contas st) `prefix_of` (numero_conta <$> contas st')
  /\ (cliente <$> contas st) `prefix_of` (cliente <$> contas st')
  /\ (numero_conta_seq st <= numero_conta_seq st')%Z.
Proof.
  intros [|i c v Hc _|i c v Hc _|pf _|u _]; cbn [usuarios contas
    numero_conta_seq guarda_conta].
  - repeat split; reflexivity.
  - rewrite !(fmap_insert_mesmo _ _ i c) by
      (try exact Hc; apply dados_executar_transacao).
    repeat split; reflexivity.
  - rewrite !(fmap_insert_mesmo _ _ i c) by
      (try exact Hc; apply dados_saque_driver).
    repeat split; reflexivity.
  - split; [apply prefix_app_r; reflexivity|]. repeat split; reflexivity.
  - rewrite !fmap_app. split; [reflexivity|].
    split; [apply prefix_app_r; reflexivity|].
    split; [apply prefix_app_r; reflexivity | lia].
Qed.

Lemma rtc_invariante (V : float -> Prop) (P : Estado -> Prop) :
  (forall st st', P st -> passo V st st' -> P st') ->
  forall st st', P st -> rtc (passo V) st st' -> P st'.
Proof.
  intros HP st st' H Hr. induction Hr as [|st st1 st2 H1 _ IH]; [exact H|].
  apply IH. apply (HP st); assumption.
Qed.

Lemma estado_inicial_valido :
  numeros_em_sequencia estado_inicial /\ titulares_cadastrados estado_inicial
  /\ contas_padrao estado_inicial /\ saldos_nao_negativos estado_inicial.
Proof. repeat split; constructor. Qed.

End Invariantes_do_programa.

(** ** The lines a run reads *)

Section Linhas_lidas.

Lemma io_lendo_retorna {A : Type} (a : A) (Q : list string -> A -> Prop) :
  Q [] a -> io_lendo (io_retorna a) Q.
Proof. intros H k a' k' [= <- <-]. exists []. split; [reflexivity | exact H]. Qed.

Lemma io_lendo_print (s : string) (Q : list string -> unit -> Prop) :
  Q [] tt -> io_lendo (print s) Q.
Proof.
  intros H k [] k'. rewrite print_eq. intros [= <-].
  exists []. split; [reflexivity | exact H].
Qed.

Lemma io_lendo_input (p : string) (Q : list string -> string -> Prop) :
  (forall l, Q [l] l) -> io_lendo (input p) Q.
Proof.
  intros H [[|l r] o] a k'; [rewrite input_nil; discriminate|].
  rewrite input_cons. intros [= <- <-]. exists [l].
  split; [reflexivity | apply H].
Qed.

(** The lines read by two actions in sequence are those of the first
    followed by those of the second. *)
Lemma io_lendo_liga {A B : Type} (m : IO A) (f : A -> IO B)
    (P : list string -> A -> Prop) (Q : list string -> B -> Prop) :
  io_lendo m P ->
  (forall a ls, P ls a -> io_lendo (f a) (fun ls' b => Q (ls ++ ls')%list b)) ->
  io_lendo (io_liga m f) Q.
Proof.
  intros Hm Hf k b k'. unfold io_liga.
  destruct (m k) as [[e|a] k1] eqn:E; [discriminate|].
  intros H. destruct (Hm k a k1 E) as (ls & E1 & HP).
  destruct (Hf a ls HP k1 b k' H) as (ls' & E2 & HQ).
  exists (ls ++ ls')%list. split; [|exact HQ].
  rewrite E1, E2, List.app_assoc. reflexivity.
Qed.

Lemma io_lendo_fraco {A : Type} (m : IO A) (P Q : list string -> A -> Prop) :
  (forall ls a, P ls a -> Q ls a) -> io_lendo m P -> io_lendo m Q.
Proof.
  intros HPQ Hm k a k' E. destruct (Hm k a k' E) as (ls & E1 & HP).
  exists ls. split; [exact E1 | apply HPQ, HP].
Qed.

(** An action that reads lines from the front of the input, with what
    [io_pos] tells of its result. *)
Lemma io_lendo_pos {A : Type} (m : IO A) (P : A -> Prop) :
  io_pos m P -> io_lendo m (fun _ _ => True) -> io_lendo m (fun _ a => P a).
Proof.
  intros HP Hm k a k' E. destruct (Hm k a k' E) as (ls & E1 & _).
  exists ls. split; [exact E1 | apply (HP k a k' E)].
Qed.

Lemma io_lendo_liga_qualquer {A B : Type} (m : IO A) (f : A -> IO B) :
  io_lendo m (fun _ _ => True) ->
  (forall a, io_lendo (f a) (fun _ _ => True)) ->
  io_lendo (io_liga m f) (fun _ _ => True).
Proof.
  intros Hm Hf. apply (io_lendo_liga m f (fun _ _ => True)); [exact Hm|].
  intros a ls _. apply Hf.
Qed.

End Linhas_lidas.

(** Goes through a console action that reads from the front of the
    input, one construct at a time. *)
Ltac le_da_frente :=
  repeat first
    [ apply io_lendo_retorna; exact I
    | apply io_lendo_print; exact I
    | apply io_lendo_input; intros ?; exact I
    | apply io_lendo_liga_qualquer; [|intros ?]
    | match goal with
      | |- io_lendo (match ?x with _ => _ end) _ => destruct x
      end ].

Section Linhas_do_programa.

Variable py_int : string -> option Z.
Variable py_float : string -> option float.

Lemma criar_usuario_le (us : list PessoaFisica) :
  io_lendo (criar_usuario us) (fun _ _ => True).
Proof. unfold criar_usuario. le_da_frente. Qed.

Lemma criar_conta_le (ag : string) (n : Z) (us : list PessoaFisica) :
  io_lendo (criar_conta ag n us) (fun _ _ => True).
Proof. unfold criar_conta. le_da_frente. Qed.

Lemma exibir_extrato_le (c : Conta) :
  io_lendo (exibir_extrato c) (fun _ _ => True).
Proof.
  intros k a k'. rewrite exibir_extrato_eq. intros [= _ <-].
  exists []. split; [reflexivity | exact I].
Qed.

Lemma listar_contas_le (cs : list Conta) :
  io_lendo (listar_contas cs) (fun _ _ => True).
Proof.
  intros k [] k'. rewrite (proj1 (listar_contas_eq cs k)). intros [= <-].
  exists []. split; [reflexivity | exact I].
Qed.

Lemma escolher_conta_le (p : string) (st : Estado) :
  io_lendo (escolher_conta py_int p st) (fun _ _ => True).
Proof. unfold escolher_conta. le_da_frente. Qed.

(** The amount that [ler_valor] returns is what [float] gives on the line
    it has read. *)
Lemma ler_valor_lido_em (p : string) :
  io_lendo (ler_valor py_float p)
    (fun ls r => forall v, r = Some v -> lido_em py_float ls v).
Proof.
  intros [[|l r] o] a k'; unfold ler_valor, io_liga;
    [rewrite input_nil; discriminate|].
  rewrite input_cons. destruct (py_float l) as [v|] eqn:E.
  - intros [= <- <-]. exists [l]. split; [reflexivity|].
    intros v' [= <-]. exists l. split; [left | exact E].
  - rewrite print_eq. intros [= <- <-]. exists [l].
    split; [reflexivity | discriminate].
Qed.

Lemma lido_em_app (ls1 ls2 ls3 : list string) (v : float) :
  lido_em py_float ls2 v -> lido_em py_float (ls1 ++ ls2 ++ ls3)%list v.
Proof.
  intros (l & Hin & E). exists l. split; [|exact E].
  rewrite !elem_of_app. auto.
Qed.

Lemma passo_mono (V W : float -> Prop) (st st' : Estado) :
  (forall v, V v -> W v) -> passo V st st' -> passo W st st'.
Proof.
  intros H [|i c v Hc Hv|i c v Hc Hv|pf Hf|u Hu].
  - apply passo_nada.
  - apply passo_deposito; auto.
  - apply passo_saque; auto.
  - apply passo_usuario, Hf.
  - apply passo_conta, Hu.
Qed.

Lemma lido_em_mais (ls ls' : list string) (v : float) :
  (forall l, l ∈ ls -> l ∈ ls') ->
  lido_em py_float ls v -> lido_em py_float ls' v.
Proof. intros H (l & Hin & E). exists l. split; [apply H, Hin | exact E]. Qed.

(** What a turn of the loop does to the variables of [main], with the
    amounts among those that [float] gives on the lines of the turn. *)
Lemma iteracao_lidas (st : Estado) :
  io_lendo (iteracao py_int py_float st)
    (fun ls r => passo (lido_em py_float ls) st (snd r)).
Proof.
  unfold iteracao, menu.
  eapply io_lendo_liga;
    [apply (io_lendo_input _ (fun _ _ => True)); intros ?; exact I|].
  intros linha ls0 _.
  destruct (String.eqb (lower (strip linha)) "d").
  { eapply io_lendo_liga;
      [apply io_lendo_pos; [apply escolher_conta_pos | apply escolher_conta_le]|].
    intros [[i c]|] ls1 Hc; [|apply io_lendo_retorna; constructor].
    eapply io_lendo_liga; [apply ler_valor_lido_em|].
    intros [v|] ls2 Hv; [|apply io_lendo_retorna; constructor].
    destruct (executar_transacao (Deposito v) c) as [r c1] eqn:E.
    apply io_lendo_liga with (P := fun _ _ => True);
      [apply io_lendo_print; exact I|]. intros _ ls3 _.
    apply io_lendo_retorna. cbn [snd].
    replace c1 with (snd (executar_transacao (Deposito v) c))
      by (rewrite E; reflexivity).
    apply passo_deposito; [auto|].
    rewrite List.app_assoc. apply lido_em_app. auto. }
  destruct (String.eqb (lower (strip linha)) "s").
  { eapply io_lendo_liga;
      [apply io_lendo_pos; [apply escolher_conta_pos | apply escolher_conta_le]|].
    intros [[i c]|] ls1 Hc; [|apply io_lendo_retorna; constructor].
    eapply io_lendo_liga; [apply ler_valor_lido_em|].
    intros [v|] ls2 Hv; [|apply io_lendo_retorna; constructor].
    destruct (atribui_limite_saques LIMITE_SAQUES c) as [u c1] eqn:E1.
    destruct (executar_transacao (Saque v) c1) as [r c2] eqn:E2.
    apply io_lendo_liga with (P := fun _ _ => True);
      [apply io_lendo_print; exact I|]. intros _ ls3 _.
    apply io_lendo_retorna. cbn [snd].
    replace c2 with (snd (executar_transacao (Saque v)
                            (snd (atribui_limite_saques LIMITE_SAQUES c))))
      by (rewrite E1; cbn [snd]; rewrite E2; reflexivity).
    apply passo_saque; [auto|].
    rewrite List.app_assoc. apply lido_em_app. auto. }
  destruct (String.eqb (lower (strip linha)) "e").
  { eapply io_lendo_liga;
      [apply io_lendo_pos; [apply escolher_conta_pos | apply escolher_conta_le]|].
    intros [[i c]|] ls1 Hc; [|apply io_lendo_retorna; constructor].
    eapply io_lendo_liga;
      [apply io_lendo_pos; [apply exibir_extrato_pos | apply exibir_extrato_le]|].
    intros c1 ls2 ->. apply io_lendo_retorna. cbn [snd].
    rewrite guarda_conta_id by auto. constructor. }
  destruct (String.eqb (lower (strip linha)) "nu").
  { intros k r k'. unfold io_liga.
    destruct (criar_usuario (usuarios st) k) as [[e|us1] k1] eqn:E;
      [discriminate|].
    intros [= <- <-]. cbn [snd].
    destruct (criar_usuario_le _ _ _ _ E) as (ls1 & E1 & _).
    exists ls1. split; [exact E1|].
    destruct (criar_usuario_retorno _ _ _ _ E) as [-> | (pf & -> & Hf)].
    - destruct st; constructor.
    - apply passo_usuario, Hf. }
  destruct (String.eqb (lower (strip linha)) "nc").
  { eapply io_lendo_liga;
      [apply io_lendo_pos; [apply criar_conta_pos | apply criar_conta_le]|].
    intros [c|] ls1 Hc; [|apply io_lendo_retorna; constructor].
    destruct (Hc c eq_refl) as (u & Hin & ->).
    apply io_lendo_retorna. cbn [snd]. apply passo_conta, Hin. }
  destruct (String.eqb (lower (strip linha)) "lc").
  { apply io_lendo_liga with (P := fun _ _ => True);
      [apply listar_contas_le|]. intros _ ls1 _.
    apply io_lendo_retorna. constructor. }
  destruct (String.eqb (lower (strip linha)) "q").
  { apply io_lendo_retorna. constructor. }
  apply io_lendo_liga with (P := fun _ _ => True);
    [apply io_lendo_print; exact I|]. intros _ ls1 _.
  apply io_lendo_retorna. constructor.
Qed.

(** A run of the loop that ends at [q] is a chain of such turns, with
    the amounts among those that [float] gives on the lines of the run. *)
Lemma main_laco_lidas (voltas : nat) (st : Estado) (k : Console)
    (st' : Estado) (k' : Console) :
  main_laco py_int py_float voltas st k = Some (inr st', k') ->
  exists ls, entrada k = (ls ++ entrada k')%list
    /\ rtc (passo (lido_em py_float ls)) st st'.
Proof.
  revert st k. induction voltas as [|voltas IH]; intros st k; [discriminate|].
  cbn [main_laco].
  destruct (iteracao py_int py_float st k) as [[e|[[] st1]] k1] eqn:E;
    [discriminate| |].
  - intros [= <- <-]. destruct (iteracao_lidas st k _ k1 E) as (ls & E1 & H).
    exists ls. split; [exact E1 | apply rtc_once, H].
  - intros H. destruct (iteracao_lidas st k _ k1 E) as (ls1 & E1 & H1).
    destruct (IH _ _ H) as (ls2 & E2 & H2).
    exists (ls1 ++ ls2)%list. split.
    + rewrite E1, E2, List.app_assoc. reflexivity.
    + eapply rtc_l.
      * apply (passo_mono (lido_em py_float ls1)); [|exact H1].
        intros v. apply lido_em_mais. intros l Hl.
        apply elem_of_app. left. exact Hl.
      * eapply rtc_subrel; [|exact H2].
        intros x y. apply passo_mono. intros v. apply lido_em_mais.
        intros l Hl. apply elem_of_app. right. exact Hl.
Qed.

End Linhas_do_programa.

(** ** The program as a whole *)

Section Programa.

Local Open Scope float_scope.

Variable py_int : string -> option Z.
Variable py_float : string -> option float.


(** X16: account numbers are assigned in sequence and never reused: the
    accounts of the list are numbered 1, 2, 3, ... in order, the next number
    is the one after the last, and so no two accounts have the same number.
    Every turn of the loop keeps this, and it holds when [main] returns. *)
Theorem main_numeros_em_sequencia :
  (forall (st : Estado) (k : Console) (r : bool * Estado) (k' : Console),
     numeros_em_sequencia st ->
     iteracao py_int py_float st k = (inr r, k') ->
     numeros_em_sequencia (snd r))
  /\ (forall (k : Console) (st' : Estado) (k' : Console),
     main py_int py_float k = Some (inr st', k') ->
     numeros_em_sequencia st'
     /\ NoDup (numero_conta <$> contas st')).
Proof.
  split.
  - intros st k r k' H E.
    apply (passo_numeros _ st _ H (iteracao_passo py_int py_float st k r k' E)).
  - intros k st' k' E. apply main_laco_passos in E.
    assert (H : numeros_em_sequencia st').
    { apply (rtc_invariante _ _ (passo_numeros _) _ _
               (proj1 estado_inicial_valido) E). }
    split; [exact H|]. rewrite (proj1 H).
    apply (NoDup_fmap_2 _), NoDup_seq.
Qed.

(** X17: every account belongs to a registered person and no two registered
    persons have the same id.  Every turn of the loop keeps this, and it
    holds when [main] returns. *)
Theorem main_titulares_cadastrados :
  (forall (st : Estado) (k : Console) (r : bool * Estado) (k' : Console),
     titulares_cadastrados st ->
     iteracao py_int py_float st k = (inr r, k') ->
     titulares_cadastrados (snd r))
  /\ (forall (k : Console) (st' : Estado) (k' : Console),
     main py_int py_float k = Some (inr st', k') ->
     titulares_cadastrados st').
Proof.
  split.
  - intros st k r k' H E.
    apply (passo_titulares _ st _ H
             (iteracao_passo py_int py_float st k r k' E)).
  - intros k st' k' E. apply main_laco_passos in E.
    apply (rtc_invariante _ _ (passo_titulares _) _ _
             (proj1 (proj2 estado_inicial_valido)) E).
Qed.

(** X18: whatever is typed, every account keeps the branch 0001, the ceiling
    500.00 and the maximum of three withdrawals, and its withdrawal count
    stays between 0 and 3: no account ever has more than three successful
    withdrawals.  Every turn of the loop keeps this, and it holds when
    [main] returns. *)
Theorem main_contas_padrao :
  (forall (st : Estado) (k : Console) (r : bool * Estado) (k' : Console),
     contas_padrao st ->
     iteracao py_int py_float st k = (inr r, k') ->
     contas_padrao (snd r))
  /\ (forall (k : Console) (st' : Estado) (k' : Console),
     main py_int py_float k = Some (inr st', k') ->
     contas_padrao st').
Proof.
  split.
  - intros st k r k' H E.
    apply (passo_contas_padrao _ st _ H
             (iteracao_passo py_int py_float st k r k' E)).
  - intros k st' k' E. apply main_laco_passos in E.
    apply (rtc_invariante _ _ (passo_contas_padrao _) _ _
             (proj1 (proj2 (proj2 estado_inicial_valido))) E).
Qed.

(** X19: when [float] turns none of the lines that a run reads into a
    not-a-number, no account has a negative balance after it: a turn of
    the loop keeps the balances non-negative, and they are when [main]
    returns.  The lines read are the ones by which the input before is
    longer than the input after; what [float] gives on other lines does
    not matter. *)
Theorem main_saldos_nao_negativos :
  (forall (st : Estado) (k : Console) (r : bool * Estado) (k' : Console)
          (ls : list string),
     entrada k = (ls ++ entrada k')%list ->
     (forall l v, l ∈ ls -> py_float l = Some v -> is_nan v = false) ->
     contas_padrao st -> saldos_nao_negativos st ->
     iteracao py_int py_float st k = (inr r, k') ->
     saldos_nao_negativos (snd r))
  /\ (forall (k : Console) (st' : Estado) (k' : Console) (ls : list string),
     entrada k = (ls ++ entrada k')%list ->
     (forall l v, l ∈ ls -> py_float l = Some v -> is_nan v = false) ->
     main py_int py_float k = Some (inr st', k') ->
     saldos_nao_negativos st').
Proof.
  assert (HV : forall ls,
    (forall l v, l ∈ ls -> py_float l = Some v -> is_nan v = false) ->
    forall v, lido_em py_float ls v -> is_nan v = false)
    by (intros ls H v (l & Hin & Hl); apply (H l v Hin Hl)).
  split.
  - intros st k r k' ls Ek Hls Hp H E.
    destruct (iteracao_lidas py_int py_float st k r k' E) as (ls' & Ek' & Hst).
    assert (ls' = ls) as ->
      by (rewrite Ek in Ek'; apply (app_inv_tail _ _ _ (eq_sym Ek'))).
    apply (passo_saldos _ st _ (HV ls Hls) Hp H Hst).
  - intros k st' k' ls Ek Hls E.
    destruct (main_laco_lidas py_int py_float _ _ _ _ _ E) as (ls' & Ek' & Hst).
    assert (ls' = ls) as ->
      by (rewrite Ek in Ek'; apply (app_inv_tail _ _ _ (eq_sym Ek'))).
    apply (rtc_invariante (lido_em py_float ls)
             (fun st => contas_padrao st /\ saldos_nao_negativos st)
             ltac:(intros st1 st2 [Hp Hs] Hst'; split;
                   [apply (passo_contas_padrao _ _ _ Hp Hst')
                   |apply (passo_saldos _ _ _ (HV ls Hls) Hp Hs Hst')])
             estado_inicial st'
             ltac:(split; apply estado_inicial_valido) Hst).
Qed.

(** X20: the program only adds: through any run of the loop the persons
    registered before are still the first of the list, unchanged, the
    accounts opened before are still the first of the list with their
    numbers and owners, and the next account number never goes down. *)
Theorem main_so_acrescenta (voltas : nat) (st : Estado) (k : Console)
    (st' : Estado) (k' : Console) :
  main_laco py_int py_float voltas st k = Some (inr st', k') ->
  usuarios st `prefix_of` usuarios st'
  /\ (numero_conta <$> contas st) `prefix_of` (numero_conta <$> contas st')
  /\ (cliente <$> contas st) `prefix_of` (cliente <$> contas st')
  /\ (numero_conta_seq st <= numero_conta_seq st')%Z.
Proof.
  intros E. apply main_laco_passos in E.
  induction E as [st|st st1 st2 H1 _ IH]; [repeat split; reflexivity|].
  destruct (passo_cresce _ _ _ H1) as (A1 & A2 & A3 & A4).
  destruct IH as (B1 & B2 & B3 & B4).
  split; [etransitivity; eassumption|].
  split; [etransitivity; eassumption|].
  split; [etransitivity; eassumption | lia].
Qed.

(** X21: a turn of the loop touches one account at most: there is a place in
    the list such that the accounts at all other places are, after the
    turn, exactly as they were before it. *)
Theorem iteracao_uma_conta (st : Estado) (k : Console) (r : bool * Estado)
    (k' : Console) :
  iteracao py_int py_float st k = (inr r, k') ->
  exists i : nat,
    forall (j : nat) (c : Conta),
      j <> i -> contas st !! j = Some c -> contas (snd r) !! j = Some c.
Proof.
  intros E. pose proof (iteracao_passo py_int py_float st k r k' E) as H.
  destruct H as [|i c v Hc _|i c v Hc _|pf _|u _]; cbn [contas guarda_conta].
  - exists O. auto.
  - exists i. intros j c' Hj Hl. rewrite list_lookup_insert_ne by auto.
    exact Hl.
  - exists i. intros j c' Hj Hl. rewrite list_lookup_insert_ne by auto.
    exact Hl.
  - exists O. auto.
  - exists (length (contas st)). intros j c' Hj Hl.
    apply lookup_app_l_Some. exact Hl.
Qed.

End Programa.

Section Sessoes.

Local Open Scope float_scope.

Lemma main_numeros_em_sequencia_witness :
  numeros_em_sequencia (fst sessao_fim)
  /\ NoDup (numero_conta <$> contas (fst sessao_fim)).
Proof.
  apply (proj2 (main_numeros_em_sequencia int_decimal float_decimal)
           sessao (fst sessao_fim) (snd sessao_fim)).
  vm_compute. reflexivity.
Defined.

Lemma main_titulares_cadastrados_witness :
  titulares_cadastrados (fst sessao_fim).
Proof.
  apply (proj2 (main_titulares_cadastrados int_decimal float_decimal)
           sessao (fst sessao_fim) (snd sessao_fim)).
  vm_compute. reflexivity.
Defined.

Lemma main_contas_padrao_witness : contas_padrao (fst sessao_fim).
Proof.
  apply (proj2 (main_contas_padrao int_decimal float_decimal)
           sessao (fst sessao_fim) (snd sessao_fim)).
  vm_compute. reflexivity.
Defined.

Lemma SF_nao_nan (x : float) : Prim2SF x <> S754_nan -> is_nan x = false.
Proof.
  intros H. unfold is_nan. rewrite FloatAxioms.eqb_spec. unfold SFeqb.
  rewrite SFcompare_refl_Eq by exact H. reflexivity.
Qed.

(** The reader of numerals of the examples gives no not-a-number. *)
Lemma float_decimal_numero (l : string) (v : float) :
  float_decimal l = Some v -> is_nan v = false.
Proof.
  unfold float_decimal. destruct (int_decimal l) as [n|]; [|discriminate].
  intros [= <-]. apply SF_nao_nan. rewrite of_uint63_spec. intros E.
  pose proof (binary_normalize_nonneg prec emax
                (Uint63.to_Z (Uint63.of_Z n)) 0
                (proj1 (Uint63.to_Z_bounded _))) as H.
  rewrite E in H. discriminate H.
Qed.

(** The reader gives a not-a-number on a line of the input, which the
    run leaves unread. *)
Lemma float_com_nan_nan :
  "nan" ∈ entrada sessao_nan /\ float_com_nan "nan" = Some nan
  /\ is_nan nan = true /\ entrada (snd sessao_nan_fim) = ["d"; "1"; "nan"].
Proof.
  split; [|repeat split]. vm_compute. repeat first [left | right].
Qed.

Lemma main_saldos_nao_negativos_witness :
  saldos_nao_negativos (fst sessao_nan_fim).
Proof.
  apply (proj2 (main_saldos_nao_negativos int_decimal float_com_nan)
           sessao_nan (fst sessao_nan_fim) (snd sessao_nan_fim)
           (entrada sessao)).
  - reflexivity.
  - intros l v Hl. unfold sessao in Hl. cbn [entrada] in Hl.
    repeat (apply elem_of_cons in Hl as [-> | Hl]);
      try (vm_compute; intros [= <-]; reflexivity);
      try (vm_compute; discriminate).
    inversion Hl.
  - vm_compute. reflexivity.
Defined.

Lemma main_so_acrescenta_witness :
  usuarios estado_fulano `prefix_of` usuarios (fst sessao_conta_fim)
  /\ (numero_conta <$> contas estado_fulano)
       `prefix_of` (numero_conta <$> contas (fst sessao_conta_fim))
  /\ (cliente <$> contas estado_fulano)
       `prefix_of` (cliente <$> contas (fst sessao_conta_fim))
  /\ (numero_conta_seq estado_fulano
      <= numero_conta_seq (fst sessao_conta_fim))%Z.
Proof.
  apply (main_so_acrescenta int_decimal float_decimal 3 estado_fulano
           sessao_conta (fst sessao_conta_fim) (snd sessao_conta_fim)).
  vm_compute. reflexivity.
Defined.

Lemma iteracao_uma_conta_witness :
  exists i : nat,
    forall (j : nat) (c : Conta),
      j <> i -> contas estado_duas_contas !! j = Some c ->
      contas
        (snd (false,
              guarda_conta 1
                (snd (executar_transacao (Deposito 150)
                        (conta_nova AGENCIA 2 fulano)))
                estado_duas_contas)) !! j = Some c.
Proof.
  apply (iteracao_uma_conta int_decimal float_decimal estado_duas_contas
           sessao_deposito _
           (snd (iteracao int_decimal float_decimal estado_duas_contas
                   sessao_deposito))).
  vm_compute. reflexivity.
Defined.

Lemma invariante_cada_passo_witness :
  invariante
    (snd (executar_todas
            (take 2 [Deposito 150; Saque 500.5; Saque 100; Saque 50])
            (conta_nova "0001" 1 fulano))).
Proof.
  apply invariante_cada_passo.
  - split; [reflexivity | discriminate].
  - reflexivity.
  - repeat constructor.
Defined.

End Sessoes.
